(** * impeller/entity/geometry/vertices_geometry.cc

    A shallow embedding of the vertices geometry of the Impeller entity
    layer: the triangle-fan unroller [fromFanIndices], the geometry object
    with its queries, and the three buffer builders.

    Conventions of the embedding.
    - [unsigned int] is 32 bits wide and [size_t] is 64 bits wide (LP64).
      A loop counter declared [auto i = 0u] or [auto i = 1u] is a 32-bit
      unsigned integer: it is modelled as a [Z] and every [i++] and [i + 1]
      is reduced modulo [2^32].  Storing such a counter into a
      [std::vector<uint16_t>] narrows it modulo [2^16].
    - A [std::vector<T>] is a [list T]; [v.size()] is the length as a [Z]
      (a [size_t], never wrapped: no vector holds [2^64] elements);
      [v[i]] past the end is undefined behaviour and is modelled as the
      fault [OutOfRange].
    - [Scalar] is IEEE 754 binary32, modelled with the Standard Library's
      [spec_float] at precision 24 and maximal exponent 128.
    - Code that can fault or not return lives in the error monad
      [outcome := sum fault] of ExtLib. *)

From Stdlib Require Import ZArith List Lia Bool.
From Stdlib Require Import Floats.SpecFloat.
From ExtLib Require Import Structures.Monad Structures.MonadExc.
From ExtLib Require Import Data.Monads.EitherMonad.
Import ListNotations.
Import MonadNotation.
Local Open Scope monad_scope.
Local Open Scope Z_scope.

(** ** Machine integers *)

Definition UINT_WIDTH : Z := 32.
Definition UINT16_WIDTH : Z := 16.

(** Value of an unsigned integer expression after reduction to 32 bits. *)
Definition to_uint (z : Z) : Z := z mod 2 ^ UINT_WIDTH.

(** Implicit conversion of an unsigned integer to [uint16_t]. *)
Definition to_uint16 (z : Z) : Z := z mod 2 ^ UINT16_WIDTH.

Definition uint16_t : Type := Z.

(** ** Faults and the error monad *)

Inductive fault : Type :=
| OutOfRange   (* operator[] with an index past the end of a vector *)
| Overrun      (* a write past the end of an emplaced allocation *)
| Diverges.    (* the loop counter wrapped around: the loop never exits *)

Definition outcome : Type -> Type := sum fault.

(** ** std::vector *)

Definition vector (A : Type) : Type := list A.

Definition size {A : Type} (v : vector A) : Z := Z.of_nat (length v).

Definition push_back {A : Type} (v : vector A) (a : A) : vector A := v ++ [a].

(** [v[i]] for an unsigned index [i]. *)
Definition at_index {A : Type} (v : vector A) (i : Z) : outcome A :=
  match nth_error v (Z.to_nat i) with
  | Some a => ret a
  | None => raise OutOfRange
  end.

(** ** The fan unroller *)

(** The loop of the explicit case,
    [for (auto i = 1u; i < indices.size() - 1; i++)], started at counter [i]
    with [unrolled] already pushed.  [fuel] bounds the number of times the
    loop condition is evaluated. *)
Fixpoint unroll_explicit (fuel : nat) (indices : vector uint16_t)
    (center_point : uint16_t) (i : Z) (unrolled : vector uint16_t)
    : outcome (vector uint16_t) :=
  match fuel with
  | O => raise Diverges
  | S fuel' =>
      if i <? size indices - 1 then
        a <- at_index indices i ;;
        b <- at_index indices (to_uint (i + 1)) ;;
        unroll_explicit fuel' indices center_point (to_uint (i + 1))
          (push_back (push_back (push_back unrolled center_point) a) b)
      else ret unrolled
  end.

(** The loop of the implicit case,
    [for (auto i = 1u; i < vertices.size() - 1; i++)]. *)
Fixpoint unroll_implicit {P : Type} (fuel : nat) (vertices : vector P)
    (i : Z) (unrolled : vector uint16_t) : outcome (vector uint16_t) :=
  match fuel with
  | O => raise Diverges
  | S fuel' =>
      if i <? size vertices - 1 then
        unroll_implicit fuel' vertices (to_uint (i + 1))
          (push_back
             (push_back (push_back unrolled (to_uint16 0)) (to_uint16 i))
             (to_uint16 (to_uint (i + 1))))
      else ret unrolled
  end.

(** [fromFanIndices] with an explicit bound on the loop. *)
Definition fromFanIndices_fuel {P : Type} (fuel : nat)
    (vertices : vector P) (indices : vector uint16_t)
    : outcome (vector uint16_t) :=
  let unrolled_indices : vector uint16_t := [] in
  if size indices >? 0 then
    if size indices <? 3 then ret []
    else
      center_point <- at_index indices 0 ;;
      unroll_explicit fuel indices center_point 1 unrolled_indices
  else
    if size vertices <? 3 then ret []
    else unroll_implicit fuel vertices 1 unrolled_indices.

(** [fromFanIndices].  A loop that exits does so before its condition has
    been evaluated as many times as the vector it walks has elements, so
    that many evaluations are granted; [fan_fuel_irrelevant] and
    [fan_diverges] below show that the bound changes nothing. *)
Definition fromFanIndices {P : Type}
    (vertices : vector P) (indices : vector uint16_t)
    : outcome (vector uint16_t) :=
  fromFanIndices_fuel (length indices + length vertices) vertices indices.

(** ** Closed forms of the unroller's output *)

(** The triples [(center, indices[i], indices[i+1])] for [i] in
    [first, first + count). *)
Definition explicit_triples (indices : list uint16_t) (center : uint16_t)
    (first count : nat) : list uint16_t :=
  flat_map (fun i => [center; nth i indices 0; nth (S i) indices 0])
           (seq first count).

(** The triples [(0, i, i+1)] as mathematical integers. *)
Definition implicit_triples (first count : nat) : list Z :=
  flat_map (fun i => [0; Z.of_nat i; Z.of_nat i + 1]) (seq first count).

(** The triples [(0, i, i+1)] as they are stored, each value narrowed to
    sixteen bits. *)
Definition implicit_triples16 (first count : nat) : list uint16_t :=
  flat_map (fun i => [0; to_uint16 (Z.of_nat i); to_uint16 (Z.of_nat i + 1)])
           (seq first count).

(** ** Scalars, points, colours and rectangles *)

(** [Scalar] is [float]: IEEE 754 binary32. *)
Definition Scalar : Type := spec_float.
Definition Scalar_prec : Z := 24.
Definition Scalar_emax : Z := 128.

Definition Scalar_sub : Scalar -> Scalar -> Scalar :=
  SFsub Scalar_prec Scalar_emax.

(** The literals [0.0f] and [1.0f]. *)
Definition Scalar_0 : Scalar := S754_zero false.
Definition Scalar_1 : Scalar := S754_finite false 8388608 (-23).

Definition is_nan (s : Scalar) : bool :=
  match s with S754_nan => true | _ => false end.

(** [std::clamp(v, lo, hi)], that is
    [(v < lo) ? lo : (hi < v) ? hi : v]. *)
Definition std_clamp (v lo hi : Scalar) : Scalar :=
  if SFltb v lo then lo else if SFltb hi v then hi else v.

Module Point.
Record t : Type := Make { x : Scalar; y : Scalar }.
End Point.

Module Color.
Record t : Type :=
  Make { red : Scalar; green : Scalar; blue : Scalar; alpha : Scalar }.
End Color.

(** Modelled from the spec: the declaration of [Rect] is not part of this
    file; the spec describes it as an axis-aligned rectangle, kept here by
    its four edges. *)
Module Rect.
Record t : Type :=
  MakeLTRB { left : Scalar; top : Scalar; right : Scalar; bottom : Scalar }.
End Rect.

(** ** Enumerations *)

Module VertexMode.
Inductive t : Type := kTriangles | kTriangleStrip | kTriangleFan.
End VertexMode.

(** Modelled from the spec: the declarations of [PrimitiveType],
    [IndexType] and [GeometryVertexType] are not part of this file.  The
    spec names the members this file produces; the remaining members of the
    engine's enumerations are listed as well, so that "no other value" is a
    statement with content. *)
Module PrimitiveType.
Inductive t : Type := kTriangle | kTriangleStrip | kLine | kLineStrip | kPoint.
End PrimitiveType.

Module IndexType.
Inductive t : Type := kUnknown | k16bit | k32bit | kNone.
End IndexType.

Module GeometryVertexType.
Inductive t : Type := kPosition | kColor | kUV.
End GeometryVertexType.

(** ** Packed vertex records *)

(** [GeometryColorPipeline::VertexShader::PerVertexData], with the fields
    the builder initialises. *)
Module ColorVertex.
Record t : Type := Make { position : Point.t; color : Color.t }.
End ColorVertex.

(** [PorterDuffBlendPipeline::VertexShader::PerVertexData]. *)
Module BlendVertex.
Record t : Type :=
  Make { vertices : Point.t; texture_coords : Point.t; color : Color.t }.
End BlendVertex.

(** ** The transient arena *)

(** What one allocation of the transients buffer holds. *)
Inductive allocation : Type :=
| PositionData (data : vector Point.t)
| ColorVertexData (data : vector ColorVertex.t)
| BlendVertexData (data : vector BlendVertex.t)
| IndexData (data : vector uint16_t).

(** The arena is append-only: allocations in the order they were made. *)
Definition HostBuffer : Type := list allocation.

(** A view names the allocation it refers to and its length in bytes; the
    value-initialised view [{}] refers to nothing. *)
Record BufferView : Type :=
  { buffer : option nat; range_length : Z }.

Definition empty_view : BufferView := {| buffer := None; range_length := 0 |}.

(** [HostBuffer::Emplace(data, length, align)]. *)
Definition Emplace (host : HostBuffer) (data : allocation) (length_bytes : Z)
    : HostBuffer * BufferView :=
  (host ++ [data],
   {| buffer := Some (length host); range_length := length_bytes |}).

(** [HostBuffer::Emplace(length, align, callback)]: the callback fills the
    new allocation and may fault while doing so. *)
Definition Emplace_with (host : HostBuffer) (length_bytes : Z)
    (callback : outcome allocation) : outcome (HostBuffer * BufferView) :=
  data <- callback ;;
  ret (Emplace host data length_bytes).

(** The allocation a view refers to. *)
Definition view_contents (host : HostBuffer) (view : BufferView)
    : option allocation :=
  match buffer view with
  | Some slot => nth_error host slot
  | None => None
  end.

(** The loop of a fill callback,
    [for (auto i = 0u; i < vertices_.size(); i++)
       { vertex_data = ...; memcpy(vtx_contents++, &vertex_data, ...); }],
    started at counter [i] with [written] already copied.  [vertex_data]
    is the loop body up to the copy; the allocation has room for
    [capacity] records; [fuel] bounds the evaluations of the loop
    condition. *)
Fixpoint fill_loop {P R : Type} (fuel : nat) (vertex_data : Z -> outcome R)
    (vertices : vector P) (capacity : Z) (i : Z) (written : vector R)
    : outcome (vector R) :=
  match fuel with
  | O => raise Diverges
  | S fuel' =>
      if i <? size vertices then
        record <- vertex_data i ;;
        if size written <? capacity then
          fill_loop fuel' vertex_data vertices capacity (to_uint (i + 1))
            (push_back written record)
        else raise Overrun
      else ret written
  end.

(** A fill callback run on a fresh allocation.  Every evaluation of the
    loop condition but the last is followed by a copy, and the copy past
    the [capacity]-th record is a fault: more evaluations than
    [capacity + 1] never happen. *)
Definition fill_vertices {P R : Type} (vertex_data : Z -> outcome R)
    (vertices : vector P) (capacity : Z) : outcome (vector R) :=
  fill_loop (S (S (Z.to_nat capacity))) vertex_data vertices capacity 0 [].

Definition sizeof_float : Z := 4.
Definition sizeof_uint16_t : Z := 2.

(** ** Collaborators *)

(** What this file uses and does not define: the matrix type and its
    products, the rectangle helpers, the entity's shader transform, the
    constant [kEhCloseEnough] and the sizes of the two packed records. *)
Class Collaborators : Type :=
  { Matrix : Type;
    Entity : Type;
    RenderPass : Type;
    (* Matrix::operator*(const Matrix&) *)
    Matrix_mul : Matrix -> Matrix -> Matrix;
    (* Matrix::operator*(const Point&) *)
    Matrix_apply : Matrix -> Point.t -> Point.t;
    GetNormalizingTransform : Rect.t -> Matrix;
    (* Rect::MakePointBounds(first, last) *)
    MakePointBounds : vector Point.t -> option Rect.t;
    TransformBounds : Rect.t -> Matrix -> Rect.t;
    GetShaderTransform : Entity -> RenderPass -> Matrix;
    kEhCloseEnough : Scalar;
    sizeof_ColorVertex : Z;
    sizeof_BlendVertex : Z }.

(** ** Geometry result *)

Record VertexBuffer : Type :=
  { vertex_buffer : BufferView;
    index_buffer : BufferView;
    vertex_count : Z;
    index_type : IndexType.t }.

Record GeometryResult `{Collaborators} : Type :=
  { type : PrimitiveType.t;
    result_vertex_buffer : VertexBuffer;
    transform : Matrix }.

(** ** VerticesGeometry *)

Record VerticesGeometry : Type :=
  { vertices_ : vector Point.t;
    colors_ : vector Color.t;
    texture_coordinates_ : vector Point.t;
    indices_ : vector uint16_t;
    bounds_ : Rect.t;
    vertex_mode_ : VertexMode.t }.

Definition set_indices (g : VerticesGeometry) (indices : vector uint16_t)
    : VerticesGeometry :=
  {| vertices_ := vertices_ g;
     colors_ := colors_ g;
     texture_coordinates_ := texture_coordinates_ g;
     indices_ := indices;
     bounds_ := bounds_ g;
     vertex_mode_ := vertex_mode_ g |}.

Definition NormalizeIndices (g : VerticesGeometry) : outcome VerticesGeometry :=
  match vertex_mode_ g with
  | VertexMode.kTriangleFan =>
      unrolled <- fromFanIndices (vertices_ g) (indices_ g) ;;
      ret (set_indices g unrolled)
  | _ => ret g
  end.

(** The constructor: the member initialisers, then [NormalizeIndices]. *)
Definition VerticesGeometry_new (vertices : vector Point.t)
    (indices : vector uint16_t) (texture_coordinates : vector Point.t)
    (colors : vector Color.t) (bounds : Rect.t) (vertex_mode : VertexMode.t)
    : outcome VerticesGeometry :=
  NormalizeIndices
    {| vertices_ := vertices;
       colors_ := colors;
       texture_coordinates_ := texture_coordinates;
       indices_ := indices;
       bounds_ := bounds;
       vertex_mode_ := vertex_mode |}.

Definition GetPrimitiveType (g : VerticesGeometry) : PrimitiveType.t :=
  match vertex_mode_ g with
  | VertexMode.kTriangleFan => PrimitiveType.kTriangle
  | VertexMode.kTriangleStrip => PrimitiveType.kTriangleStrip
  | VertexMode.kTriangles => PrimitiveType.kTriangle
  end.

Definition HasVertexColors (g : VerticesGeometry) : bool :=
  size (colors_ g) >? 0.

Definition HasTextureCoordinates (g : VerticesGeometry) : bool :=
  size (texture_coordinates_ g) >? 0.

Definition GetVertexType (g : VerticesGeometry) : GeometryVertexType.t :=
  if HasVertexColors g then GeometryVertexType.kColor
  else if HasTextureCoordinates g then GeometryVertexType.kUV
  else GeometryVertexType.kPosition.

Section Builders.
Context `{Collaborators}.

Definition GetTextureCoordinateCoverge (g : VerticesGeometry) : option Rect.t :=
  if negb (HasTextureCoordinates g) then None
  else
    let vertex_count := size (vertices_ g) in
    if vertex_count =? 0 then None
    else MakePointBounds (texture_coordinates_ g).

Definition GetCoverage (g : VerticesGeometry) (transform : Matrix)
    : option Rect.t :=
  Some (TransformBounds (bounds_ g) transform).

(** The index view shared by the three builders:
    [BufferView index_buffer = {}; if (index_count > 0) index_buffer =
    Emplace(indices_.data(), total_idx_bytes, alignof(uint16_t))]. *)
Definition emplace_indices (g : VerticesGeometry) (host : HostBuffer)
    : HostBuffer * BufferView :=
  let index_count := size (indices_ g) in
  let total_idx_bytes := index_count * sizeof_uint16_t in
  if index_count >? 0 then Emplace host (IndexData (indices_ g)) total_idx_bytes
  else (host, empty_view).

(** The returned [GeometryResult]. *)
Definition make_result (g : VerticesGeometry) (vertex_view index_view : BufferView)
    (entity : Entity) (pass : RenderPass) : GeometryResult :=
  let index_count := size (indices_ g) in
  let vertex_count := size (vertices_ g) in
  {| type := GetPrimitiveType g;
     result_vertex_buffer :=
       {| vertex_buffer := vertex_view;
          index_buffer := index_view;
          vertex_count := if index_count >? 0 then index_count else vertex_count;
          index_type :=
            if index_count >? 0 then IndexType.k16bit else IndexType.kNone |};
     transform := GetShaderTransform entity pass |}.

Definition GetPositionBuffer (g : VerticesGeometry) (host : HostBuffer)
    (entity : Entity) (pass : RenderPass) : HostBuffer * GeometryResult :=
  let vertex_count := size (vertices_ g) in
  let total_vtx_bytes := vertex_count * sizeof_float * 2 in
  let '(host1, vertex_view) :=
    Emplace host (PositionData (vertices_ g)) total_vtx_bytes in
  let '(host2, index_view) := emplace_indices g host1 in
  (host2, make_result g vertex_view index_view entity pass).

(** The body of the fill callback of [GetPositionColorBuffer] at counter
    [i]: the record copied through [vtx_contents++]. *)
Definition color_vertex_at (g : VerticesGeometry) (i : Z)
    : outcome ColorVertex.t :=
  position <- at_index (vertices_ g) i ;;
  color <- at_index (colors_ g) i ;;
  ret {| ColorVertex.position := position; ColorVertex.color := color |}.

Definition GetPositionColorBuffer (g : VerticesGeometry) (host : HostBuffer)
    (entity : Entity) (pass : RenderPass)
    : outcome (HostBuffer * GeometryResult) :=
  let vertex_count := size (vertices_ g) in
  let total_vtx_bytes := vertex_count * sizeof_ColorVertex in
  '(host1, vertex_view) <-
    Emplace_with host total_vtx_bytes
      (data <- fill_vertices (color_vertex_at g) (vertices_ g) vertex_count ;;
       ret (ColorVertexData data)) ;;
  let '(host2, index_view) := emplace_indices g host1 in
  ret (host2, make_result g vertex_view index_view entity pass).

(** The texture coordinate stored for the transformed point [uv]. *)
Definition clamp_uv (uv : Point.t) : Point.t :=
  Point.Make
    (std_clamp (Point.x uv) Scalar_0 (Scalar_sub Scalar_1 kEhCloseEnough))
    (std_clamp (Point.y uv) Scalar_0 (Scalar_sub Scalar_1 kEhCloseEnough)).

(** The body of the fill callback of [GetPositionUVColorBuffer] at
    counter [i]. *)
Definition blend_vertex_at (g : VerticesGeometry) (uv_transform : Matrix)
    (has_texture_coordinates : bool) (i : Z) : outcome BlendVertex.t :=
  vertex <- at_index (vertices_ g) i ;;
  texture_coord <-
    (if has_texture_coordinates
     then at_index (texture_coordinates_ g) i
     else at_index (vertices_ g) i) ;;
  let uv := Matrix_apply uv_transform texture_coord in
  color <- at_index (colors_ g) i ;;
  ret {| BlendVertex.vertices := vertex;
         BlendVertex.texture_coords := clamp_uv uv;
         BlendVertex.color := color |}.

Definition GetPositionUVColorBuffer (g : VerticesGeometry)
    (texture_coverage : Rect.t) (effect_transform : Matrix)
    (host : HostBuffer) (entity : Entity) (pass : RenderPass)
    : outcome (HostBuffer * GeometryResult) :=
  let vertex_count := size (vertices_ g) in
  let uv_transform :=
    Matrix_mul (GetNormalizingTransform texture_coverage) effect_transform in
  let has_texture_coordinates := HasTextureCoordinates g in
  let total_vtx_bytes := size (vertices_ g) * sizeof_BlendVertex in
  '(host1, vertex_view) <-
    Emplace_with host total_vtx_bytes
      (data <- fill_vertices
                 (blend_vertex_at g uv_transform has_texture_coordinates)
                 (vertices_ g) vertex_count ;;
       ret (BlendVertexData data)) ;;
  let '(host2, index_view) := emplace_indices g host1 in
  ret (host2, make_result g vertex_view index_view entity pass).

End Builders.

(** ** A concrete set of collaborators *)

(** Modelled from the spec: the matrix and rectangle helpers and the
    constant [kEhCloseEnough] are declared outside this file.  The instance
    below gives them concrete binary32 meanings on which the builders can
    be run: a transform is represented by its action on points, the
    normalizing transform of a rectangle maps the rectangle onto the unit
    square, the point bounds are the componentwise minima and maxima, and
    the small positive constant is [1e-3f]. *)
Definition Scalar_div : Scalar -> Scalar -> Scalar :=
  SFdiv Scalar_prec Scalar_emax.

(** [std::min(a, b)] and [std::max(a, b)]. *)
Definition std_min (a b : Scalar) : Scalar := if SFltb b a then b else a.
Definition std_max (a b : Scalar) : Scalar := if SFltb a b then b else a.

Definition point_transform : Type := Point.t -> Point.t.

Definition normalizing_transform (r : Rect.t) : point_transform :=
  fun p =>
    Point.Make
      (Scalar_div (Scalar_sub (Point.x p) (Rect.left r))
                  (Scalar_sub (Rect.right r) (Rect.left r)))
      (Scalar_div (Scalar_sub (Point.y p) (Rect.top r))
                  (Scalar_sub (Rect.bottom r) (Rect.top r))).

Definition grow_bounds (r : Rect.t) (p : Point.t) : Rect.t :=
  Rect.MakeLTRB (std_min (Rect.left r) (Point.x p))
                (std_min (Rect.top r) (Point.y p))
                (std_max (Rect.right r) (Point.x p))
                (std_max (Rect.bottom r) (Point.y p)).

Definition point_bounds (points : vector Point.t) : option Rect.t :=
  match points with
  | [] => None
  | p :: rest =>
      Some (fold_left grow_bounds rest
              (Rect.MakeLTRB (Point.x p) (Point.y p) (Point.x p) (Point.y p)))
  end.

Definition transform_bounds (r : Rect.t) (m : point_transform) : Rect.t :=
  match point_bounds
          [m (Point.Make (Rect.left r) (Rect.top r));
           m (Point.Make (Rect.right r) (Rect.top r));
           m (Point.Make (Rect.left r) (Rect.bottom r));
           m (Point.Make (Rect.right r) (Rect.bottom r))] with
  | Some b => b
  | None => r
  end.

(** [1e-3f]: the binary32 number nearest to one thousandth. *)
Definition Scalar_1e_3 : Scalar := S754_finite false 8589935 (-33).

#[local] Instance reference_collaborators : Collaborators :=
  {| Matrix := point_transform;
     Entity := unit;
     RenderPass := unit;
     Matrix_mul := fun a b p => a (b p);
     Matrix_apply := fun m p => m p;
     GetNormalizingTransform := normalizing_transform;
     MakePointBounds := point_bounds;
     TransformBounds := transform_bounds;
     GetShaderTransform := fun _ _ p => p;
     kEhCloseEnough := Scalar_1e_3;
     sizeof_ColorVertex := 24;
     sizeof_BlendVertex := 32 |}.

(** Sample data for the concrete instances of the theorems. *)
Definition Scalar_half : Scalar := S754_finite false 8388608 (-24).
Definition Scalar_2 : Scalar := S754_finite false 8388608 (-22).
Definition origin : Point.t := Point.Make Scalar_0 Scalar_0.
Definition unit_rect : Rect.t := Rect.MakeLTRB Scalar_0 Scalar_0 Scalar_1 Scalar_1.
Definition white : Color.t := Color.Make Scalar_1 Scalar_1 Scalar_1 Scalar_1.
Definition nan_point : Point.t := Point.Make S754_nan Scalar_0.

Definition sample_triangle : VerticesGeometry :=
  {| vertices_ := [origin; Point.Make Scalar_2 Scalar_0; Point.Make Scalar_half Scalar_2];
     colors_ := [white; white; white];
     texture_coordinates_ := [];
     indices_ := [];
     bounds_ := unit_rect;
     vertex_mode_ := VertexMode.kTriangles |}.

(** A vector of [n] points, for the implicit fan. *)
Definition points (n : Z) : vector Point.t := repeat origin (Z.to_nat n).
(** A vector of [n] indices. *)
Definition zeros (n : Z) : vector uint16_t := repeat 0 (Z.to_nat n).

Definition nan_vertex : VerticesGeometry :=
  {| vertices_ := [nan_point];
     colors_ := [white];
     texture_coordinates_ := [];
     indices_ := [];
     bounds_ := unit_rect;
     vertex_mode_ := VertexMode.kTriangles |}.

(** One vertex and no colour: the colour builders read past the end. *)
Definition uncolored_vertex : VerticesGeometry :=
  {| vertices_ := [origin];
     colors_ := [];
     texture_coordinates_ := [origin];
     indices_ := [];
     bounds_ := unit_rect;
     vertex_mode_ := VertexMode.kTriangles |}.

(** The sample triangle given as a fan without indices, once constructed. *)
Definition sample_fan : VerticesGeometry :=
  {| vertices_ := vertices_ sample_triangle;
     colors_ := colors_ sample_triangle;
     texture_coordinates_ := [];
     indices_ := [0; 1; 2];
     bounds_ := unit_rect;
     vertex_mode_ := VertexMode.kTriangleFan |}.

(** The identity transform, an entity and a render pass of the concrete
    collaborators. *)
Definition identity_transform : @Matrix reference_collaborators := fun p => p.
Definition sample_entity : @Entity reference_collaborators := tt.
Definition sample_pass : @RenderPass reference_collaborators := tt.

(** ** Vocabulary of the statements *)

(** The first counter at which the body of the texture builder's loop reads
    past the end of an attribute vector, if it is a vertex index. *)
Definition first_fault (g : VerticesGeometry) : nat :=
  if HasTextureCoordinates g
  then Nat.min (length (colors_ g)) (length (texture_coordinates_ g))
  else length (colors_ g).

Section Statements.
Context `{Collaborators}.

(** The upper clamp bound, [1.0f - kEhCloseEnough]. *)
Definition uv_upper : Scalar := Scalar_sub Scalar_1 kEhCloseEnough.

(** [c] lies in [[0, 1 - kEhCloseEnough]] and is below one. *)
Definition in_uv_range (c : Scalar) : Prop :=
  SFleb Scalar_0 c = true /\ SFleb c uv_upper = true /\ SFltb c Scalar_1 = true.

(** The record the position and colour builder packs for vertex [j]. *)
Definition color_record (g : VerticesGeometry) (j : nat) : ColorVertex.t :=
  {| ColorVertex.position := nth j (vertices_ g) origin;
     ColorVertex.color := nth j (colors_ g) white |}.

(** The point the texture coordinate of vertex [j] is computed from. *)
Definition uv_source (g : VerticesGeometry) (j : nat) : Point.t :=
  if HasTextureCoordinates g then nth j (texture_coordinates_ g) origin
  else nth j (vertices_ g) origin.

(** The record the position, texture and colour builder packs for vertex
    [j]. *)
Definition blend_record (g : VerticesGeometry) (uv_transform : Matrix)
    (j : nat) : BlendVertex.t :=
  {| BlendVertex.vertices := nth j (vertices_ g) origin;
     BlendVertex.texture_coords :=
       clamp_uv (Matrix_apply uv_transform (uv_source g j));
     BlendVertex.color := nth j (colors_ g) white |}.

(** What a builder's result says about counts and indices, for the arena
    [host] before and [host'] after the call. *)
Definition size_invariant (g : VerticesGeometry) (host host' : HostBuffer)
    (r : GeometryResult) : Prop :=
  let vb := result_vertex_buffer r in
  (indices_ g <> [] ->
     vertex_count vb = size (indices_ g) /\
     index_type vb = IndexType.k16bit /\
     view_contents host' (index_buffer vb) = Some (IndexData (indices_ g)) /\
     length host' = S (S (length host))) /\
  (indices_ g = [] ->
     vertex_count vb = size (vertices_ g) /\
     index_type vb = IndexType.kNone /\
     index_buffer vb = empty_view /\
     view_contents host' (index_buffer vb) = None /\
     length host' = S (length host)).

(** The attribute lengths under which the colour builders are defined. *)
Definition attributes_fit (g : VerticesGeometry) : Prop :=
  size (colors_ g) = size (vertices_ g) /\
  (texture_coordinates_ g = [] \/
   size (texture_coordinates_ g) = size (vertices_ g)).

End Statements.

(** ** Vocabulary of the further properties *)

(** The size of the vector the unroller walks: the indices when there are
    any, the vertices otherwise. *)
Definition walked_size {P : Type} (vertices : vector P)
    (indices : vector uint16_t) : Z :=
  if size indices >? 0 then size indices else size vertices.

(** The three indices of triangle [j] of a triangle list. *)
Definition triangle_at (list_indices : vector uint16_t) (j : nat)
    : option (uint16_t * uint16_t * uint16_t) :=
  match nth_error list_indices (3 * j),
        nth_error list_indices (3 * j + 1),
        nth_error list_indices (3 * j + 2) with
  | Some a, Some b, Some c => Some (a, b, c)
  | _, _, _ => None
  end.

(** Every index refers to one of [vertex_count] vertices. *)
Definition indices_in_range (vertex_count : Z) (indices : vector uint16_t)
    : Prop :=
  forall x : uint16_t, In x indices -> 0 <= x < vertex_count.

Section FurtherStatements.
Context `{Collaborators}.

(** [(host', r)] is what one of the three builders returns on [g] in the
    arena [host]. *)
Definition builder_result (g : VerticesGeometry) (host : HostBuffer)
    (entity : Entity) (pass : RenderPass) (host' : HostBuffer)
    (r : GeometryResult) : Prop :=
  GetPositionBuffer g host entity pass = (host', r) \/
  GetPositionColorBuffer g host entity pass = inr (host', r) \/
  exists (texture_coverage : Rect.t) (effect_transform : Matrix),
    GetPositionUVColorBuffer g texture_coverage effect_transform host
      entity pass = inr (host', r).

End FurtherStatements.

(** Further sample data: a fan given by two indices only, as construction
    stores it, and a fan of four vertices without indices. *)
Definition degenerate_fan : VerticesGeometry :=
  {| vertices_ := vertices_ sample_triangle;
     colors_ := colors_ sample_triangle;
     texture_coordinates_ := [];
     indices_ := [];
     bounds_ := unit_rect;
     vertex_mode_ := VertexMode.kTriangleFan |}.

Definition square_fan : VerticesGeometry :=
  {| vertices_ := points 4;
     colors_ := [];
     texture_coordinates_ := [];
     indices_ := [];
     bounds_ := unit_rect;
     vertex_mode_ := VertexMode.kTriangleFan |}.

(** * Properties *)

(** ** Machine integers and vectors *)

Lemma to_uint_small (z : Z) : 0 <= z < 2 ^ 32 -> to_uint z = z.
Proof. intros Hz. unfold to_uint, UINT_WIDTH. apply Z.mod_small. exact Hz. Qed.

Lemma to_uint_range (z : Z) : 0 <= to_uint z < 2 ^ 32.
Proof. unfold to_uint, UINT_WIDTH. apply Z.mod_pos_bound. lia. Qed.

Lemma to_uint16_small (z : Z) : 0 <= z < 2 ^ 16 -> to_uint16 z = z.
Proof. intros Hz. unfold to_uint16, UINT16_WIDTH. apply Z.mod_small. exact Hz. Qed.

Lemma to_uint16_range (z : Z) : 0 <= to_uint16 z < 2 ^ 16.
Proof. unfold to_uint16, UINT16_WIDTH. apply Z.mod_pos_bound. lia. Qed.

Lemma at_index_nth {A : Type} (v : vector A) (k : nat) (d : A) :
  (k < length v)%nat -> at_index v (Z.of_nat k) = inr (nth k v d).
Proof.
  intros Hk. unfold at_index. rewrite Nat2Z.id.
  rewrite (nth_error_nth' v d Hk). reflexivity.
Qed.

Lemma at_index_in_range {A : Type} (v : vector A) (i : Z) :
  0 <= i < size v -> exists a, at_index v i = inr a.
Proof.
  intros Hi. unfold at_index, size in *.
  destruct (nth_error v (Z.to_nat i)) as [a|] eqn:E.
  - exists a. reflexivity.
  - apply nth_error_None in E. lia.
Qed.

Lemma at_index_past_end {A : Type} (v : vector A) (i : Z) :
  size v <= i -> at_index v i = inl OutOfRange.
Proof.
  intros Hi. unfold at_index, size in *.
  destruct (nth_error v (Z.to_nat i)) as [a|] eqn:E.
  - assert (Hlt : (Z.to_nat i < length v)%nat)
      by (apply nth_error_Some; congruence).
    lia.
  - reflexivity.
Qed.

Lemma push_back_3 {A : Type} (v : vector A) (a b c : A) :
  push_back (push_back (push_back v a) b) c = v ++ [a; b; c].
Proof. unfold push_back. rewrite <- !app_assoc. reflexivity. Qed.

(** ** The loops of the fan unroller *)

Section FanLoops.

Variable indices : vector uint16_t.
Variable center_point : uint16_t.

Lemma unroll_explicit_step (fuel : nat) (i : Z) (unrolled : vector uint16_t) :
  unroll_explicit (S fuel) indices center_point i unrolled
  = if i <? size indices - 1 then
      a <- at_index indices i ;;
      b <- at_index indices (to_uint (i + 1)) ;;
      unroll_explicit fuel indices center_point (to_uint (i + 1))
        (push_back (push_back (push_back unrolled center_point) a) b)
    else ret unrolled.
Proof. reflexivity. Qed.

(** From counter [k], with [m] triangles left, the explicit loop appends
    the [m] triples that start at [k]. *)
Lemma unroll_explicit_run (m : nat) :
  forall (k fuel : nat) (unrolled : vector uint16_t),
    (k + m + 1 = length indices)%nat ->
    size indices <= 2 ^ 32 ->
    (m < fuel)%nat ->
    unroll_explicit fuel indices center_point (Z.of_nat k) unrolled
    = inr (unrolled ++ explicit_triples indices center_point k m).
Proof.
  induction m as [|m IH]; intros k fuel unrolled Hlen Hfit Hfuel;
    destruct fuel as [|fuel]; try lia; rewrite unroll_explicit_step.
  - replace (Z.of_nat k <? size indices - 1) with false
      by (symmetry; apply Z.ltb_ge; unfold size; lia).
    unfold explicit_triples. cbn. rewrite app_nil_r. reflexivity.
  - unfold size in Hfit.
    replace (Z.of_nat k <? size indices - 1) with true
      by (symmetry; apply Z.ltb_lt; unfold size; lia).
    rewrite (to_uint_small (Z.of_nat k + 1)) by lia.
    replace (Z.of_nat k + 1) with (Z.of_nat (S k)) by lia.
    rewrite (at_index_nth indices k 0) by lia.
    rewrite (at_index_nth indices (S k) 0) by lia.
    cbn [bind Monad_either]. rewrite push_back_3.
    rewrite (IH (S k) fuel) by (unfold size; lia).
    unfold explicit_triples. cbn [seq flat_map].
    rewrite <- app_assoc. reflexivity.
Qed.

(** With more than [2^32] indices the counter never reaches the bound. *)
Lemma unroll_explicit_diverges (fuel : nat) :
  forall (i : Z) (unrolled : vector uint16_t),
    2 ^ 32 < size indices ->
    0 <= i < 2 ^ 32 ->
    unroll_explicit fuel indices center_point i unrolled = inl Diverges.
Proof.
  induction fuel as [|fuel IH]; intros i unrolled Hbig Hi.
  - reflexivity.
  - rewrite unroll_explicit_step.
    replace (i <? size indices - 1) with true
      by (symmetry; apply Z.ltb_lt; lia).
    pose proof (to_uint_range (i + 1)) as Hnext.
    destruct (at_index_in_range indices i) as [a Ha]; [lia|].
    destruct (at_index_in_range indices (to_uint (i + 1))) as [b Hb]; [lia|].
    rewrite Ha, Hb. cbn [bind Monad_either].
    apply IH; assumption.
Qed.

Lemma unroll_explicit_more_fuel (fuel : nat) :
  forall (i : Z) (unrolled r : vector uint16_t),
    unroll_explicit fuel indices center_point i unrolled = inr r ->
    unroll_explicit (S fuel) indices center_point i unrolled = inr r.
Proof.
  induction fuel as [|fuel IH]; intros i unrolled r Hrun.
  - discriminate Hrun.
  - rewrite unroll_explicit_step in Hrun |- *.
    destruct (i <? size indices - 1); [|exact Hrun].
    destruct (at_index indices i) as [e|a]; [discriminate Hrun|].
    destruct (at_index indices (to_uint (i + 1))) as [e|b]; [discriminate Hrun|].
    cbn [bind Monad_either] in Hrun |- *.
    apply IH in Hrun. exact Hrun.
Qed.

End FanLoops.

Section ImplicitLoop.

Context {P : Type}.
Variable vertices : vector P.

Lemma unroll_implicit_step (fuel : nat) (i : Z) (unrolled : vector uint16_t) :
  unroll_implicit (S fuel) vertices i unrolled
  = if i <? size vertices - 1 then
      unroll_implicit fuel vertices (to_uint (i + 1))
        (push_back
           (push_back (push_back unrolled (to_uint16 0)) (to_uint16 i))
           (to_uint16 (to_uint (i + 1))))
    else ret unrolled.
Proof. reflexivity. Qed.

(** From counter [k], with [m] triangles left, the implicit loop appends
    the narrowed triples that start at [k]. *)
Lemma unroll_implicit_run (m : nat) :
  forall (k fuel : nat) (unrolled : vector uint16_t),
    (k + m + 1 = length vertices)%nat ->
    size vertices <= 2 ^ 32 ->
    (m < fuel)%nat ->
    unroll_implicit fuel vertices (Z.of_nat k) unrolled
    = inr (unrolled ++ implicit_triples16 k m).
Proof.
  induction m as [|m IH]; intros k fuel unrolled Hlen Hfit Hfuel;
    destruct fuel as [|fuel]; try lia; rewrite unroll_implicit_step.
  - replace (Z.of_nat k <? size vertices - 1) with false
      by (symmetry; apply Z.ltb_ge; unfold size; lia).
    unfold implicit_triples16. cbn [seq flat_map]. rewrite app_nil_r.
    reflexivity.
  - unfold size in Hfit.
    replace (Z.of_nat k <? size vertices - 1) with true
      by (symmetry; apply Z.ltb_lt; unfold size; lia).
    rewrite (to_uint_small (Z.of_nat k + 1)) by lia.
    rewrite push_back_3.
    replace (Z.of_nat k + 1) with (Z.of_nat (S k)) at 1 by lia.
    rewrite (IH (S k) fuel) by (unfold size; lia).
    unfold implicit_triples16. cbn [seq flat_map].
    rewrite <- app_assoc. reflexivity.
Qed.

Lemma unroll_implicit_diverges (fuel : nat) :
  forall (i : Z) (unrolled : vector uint16_t),
    2 ^ 32 < size vertices ->
    0 <= i < 2 ^ 32 ->
    unroll_implicit fuel vertices i unrolled = inl Diverges.
Proof.
  induction fuel as [|fuel IH]; intros i unrolled Hbig Hi.
  - reflexivity.
  - rewrite unroll_implicit_step.
    replace (i <? size vertices - 1) with true
      by (symmetry; apply Z.ltb_lt; lia).
    apply IH; [assumption | apply to_uint_range].
Qed.

Lemma unroll_implicit_more_fuel (fuel : nat) :
  forall (i : Z) (unrolled r : vector uint16_t),
    unroll_implicit fuel vertices i unrolled = inr r ->
    unroll_implicit (S fuel) vertices i unrolled = inr r.
Proof.
  induction fuel as [|fuel IH]; intros i unrolled r Hrun.
  - discriminate Hrun.
  - rewrite unroll_implicit_step in Hrun |- *.
    destruct (i <? size vertices - 1); [|exact Hrun].
    apply IH in Hrun. exact Hrun.
Qed.

End ImplicitLoop.

(** ** Closed forms *)

Lemma explicit_triples_length (indices : list uint16_t) (c : uint16_t)
    (first count : nat) :
  length (explicit_triples indices c first count) = (3 * count)%nat.
Proof.
  unfold explicit_triples. revert first.
  induction count as [|count IH]; intros first; cbn [seq flat_map].
  - reflexivity.
  - rewrite length_app, IH. cbn [length]. lia.
Qed.

Lemma implicit_triples16_length (first count : nat) :
  length (implicit_triples16 first count) = (3 * count)%nat.
Proof.
  unfold implicit_triples16. revert first.
  induction count as [|count IH]; intros first; cbn [seq flat_map].
  - reflexivity.
  - rewrite length_app, IH. cbn [length]. lia.
Qed.

(** Narrowing changes nothing as long as every [i + 1] fits sixteen bits. *)
Lemma implicit_triples16_exact (count : nat) :
  forall first : nat,
    Z.of_nat (first + count) < 2 ^ 16 ->
    implicit_triples16 first count = implicit_triples first count.
Proof.
  unfold implicit_triples16, implicit_triples.
  induction count as [|count IH]; intros first Hfit; cbn [seq flat_map].
  - reflexivity.
  - rewrite IH by lia.
    rewrite (to_uint16_small (Z.of_nat first)) by lia.
    rewrite (to_uint16_small (Z.of_nat first + 1)) by lia.
    reflexivity.
Qed.

(** Conversely, where the stored triples are the mathematical ones, no
    [i + 1] was changed by the narrowing. *)
Lemma implicit_triples16_exact_inv (count : nat) :
  forall first i : nat,
    implicit_triples16 first count = implicit_triples first count ->
    (first <= i < first + count)%nat ->
    to_uint16 (Z.of_nat i + 1) = Z.of_nat i + 1.
Proof.
  unfold implicit_triples16, implicit_triples.
  induction count as [|count IH]; intros first i Heq Hi; [lia|].
  cbn [seq flat_map app] in Heq.
  injection Heq as _ Hsucc Hrest.
  destruct (Nat.eq_dec i first) as [->|Hne].
  - exact Hsucc.
  - apply (IH (S first)); [exact Hrest | lia].
Qed.

Lemma last_app_triple {A : Type} (a b c d : A) (rest : list A) :
  rest <> [] -> last ([a; b; c] ++ rest) d = last rest d.
Proof. destruct rest as [|r rest]; [congruence | reflexivity]. Qed.

Lemma implicit_triples16_last (count : nat) :
  forall (first : nat) (d : Z),
    last (implicit_triples16 first (S count)) d
    = to_uint16 (Z.of_nat (first + count) + 1).
Proof.
  induction count as [|count IH]; intros first d.
  - unfold implicit_triples16. cbn [seq flat_map app last].
    rewrite Nat.add_0_r. reflexivity.
  - change (implicit_triples16 first (S (S count)))
      with ([0; to_uint16 (Z.of_nat first); to_uint16 (Z.of_nat first + 1)]
              ++ implicit_triples16 (S first) (S count)).
    rewrite last_app_triple.
    + rewrite IH. f_equal. lia.
    + intros Hnil. apply (f_equal (@length Z)) in Hnil.
      rewrite implicit_triples16_length in Hnil. discriminate Hnil.
Qed.

Lemma implicit_triples_length (first count : nat) :
  length (implicit_triples first count) = (3 * count)%nat.
Proof.
  unfold implicit_triples. revert first.
  induction count as [|count IH]; intros first; cbn [seq flat_map].
  - reflexivity.
  - rewrite length_app, IH. cbn [length]. lia.
Qed.

Lemma implicit_triples_last (count : nat) :
  forall (first : nat) (d : Z),
    last (implicit_triples first (S count)) d = Z.of_nat (first + count) + 1.
Proof.
  induction count as [|count IH]; intros first d.
  - unfold implicit_triples. cbn [seq flat_map app last].
    rewrite Nat.add_0_r. reflexivity.
  - change (implicit_triples first (S (S count)))
      with ([0; Z.of_nat first; Z.of_nat first + 1]
              ++ implicit_triples (S first) (S count)).
    rewrite last_app_triple.
    + rewrite IH. lia.
    + intros Hnil. apply (f_equal (@length Z)) in Hnil.
      rewrite implicit_triples_length in Hnil. discriminate Hnil.
Qed.

Lemma to_uint16_65536 : to_uint16 65536 = 0.
Proof. reflexivity. Qed.

(** From [65537] vertices on, some stored index differs from its counter. *)
Lemma implicit_triples16_wraps (n : nat) :
  (65537 <= Z.of_nat n) ->
  implicit_triples16 1 (n - 2) <> implicit_triples 1 (n - 2).
Proof.
  intros Hn Heq.
  pose proof (implicit_triples16_exact_inv (n - 2) 1 (Z.to_nat 65535) Heq) as Hw.
  replace (Z.of_nat (Z.to_nat 65535) + 1) with 65536 in Hw by lia.
  rewrite to_uint16_65536 in Hw.
  assert (0 = 65536) by (apply Hw; lia).
  discriminate.
Qed.

(** ** [fromFanIndices] *)

Section FromFanIndices.

Context {P : Type}.
Variable vertices : vector P.
Variable indices : vector uint16_t.

(** The explicit case, for index vectors the 32-bit counter can walk. *)
Lemma fromFanIndices_explicit :
  indices <> [] ->
  size indices <= 2 ^ 32 ->
  fromFanIndices vertices indices
  = inr (if size indices <? 3 then []
         else explicit_triples indices (nth 0 indices 0) 1 (length indices - 2)).
Proof.
  intros Hne Hfit. unfold fromFanIndices, fromFanIndices_fuel.
  assert (Hpos : 0 < size indices)
    by (unfold size; destruct indices; [congruence | cbn [length]; lia]).
  replace (size indices >? 0) with true by (symmetry; apply Z.gtb_lt; exact Hpos).
  destruct (size indices <? 3) eqn:Hshort; [reflexivity|].
  apply Z.ltb_ge in Hshort. unfold size in Hshort, Hpos.
  change 0 with (Z.of_nat 0) at 1.
  rewrite (at_index_nth indices 0 0) by lia.
  cbn [bind Monad_either].
  change 1 with (Z.of_nat 1).
  rewrite (unroll_explicit_run indices (nth 0 indices 0) (length indices - 2))
    by (try exact Hfit; lia).
  reflexivity.
Qed.

(** The implicit case. *)
Lemma fromFanIndices_implicit :
  indices = [] ->
  size vertices <= 2 ^ 32 ->
  fromFanIndices vertices indices
  = inr (if size vertices <? 3 then []
         else implicit_triples16 1 (length vertices - 2)).
Proof.
  intros Hnil Hfit. subst indices. unfold fromFanIndices, fromFanIndices_fuel.
  change (size (@nil uint16_t) >? 0) with false. cbv iota.
  destruct (size vertices <? 3) eqn:Hshort; [reflexivity|].
  apply Z.ltb_ge in Hshort. unfold size in Hshort.
  change 1 with (Z.of_nat 1).
  rewrite (unroll_implicit_run vertices (length vertices - 2))
    by (try exact Hfit; cbn [length]; lia).
  reflexivity.
Qed.

Lemma fromFanIndices_implicit_long :
  indices = [] ->
  3 <= size vertices <= 2 ^ 32 ->
  fromFanIndices vertices indices
  = inr (implicit_triples16 1 (length vertices - 2)).
Proof.
  intros Hnil [Hlong Hfit]. rewrite (fromFanIndices_implicit Hnil Hfit).
  replace (size vertices <? 3) with false by (symmetry; apply Z.ltb_ge; lia).
  reflexivity.
Qed.

(** Past [2^32] elements the loop counter wraps before it reaches the
    bound, whatever the number of iterations granted. *)
Lemma fromFanIndices_fuel_diverges (fuel : nat) :
  (indices <> [] /\ 2 ^ 32 < size indices) \/
  (indices = [] /\ 2 ^ 32 < size vertices) ->
  fromFanIndices_fuel fuel vertices indices = inl Diverges.
Proof.
  unfold fromFanIndices_fuel. intros [[Hne Hbig]|[Hnil Hbig]].
  - replace (size indices >? 0) with true by (symmetry; apply Z.gtb_lt; lia).
    replace (size indices <? 3) with false by (symmetry; apply Z.ltb_ge; lia).
    destruct (at_index_in_range indices 0) as [c Hc]; [lia|].
    rewrite Hc. cbn [bind Monad_either].
    apply unroll_explicit_diverges; [exact Hbig | lia].
  - subst indices. change (size (@nil uint16_t) >? 0) with false. cbv iota.
    replace (size vertices <? 3) with false by (symmetry; apply Z.ltb_ge; lia).
    apply unroll_implicit_diverges; [exact Hbig | lia].
Qed.

Lemma fan_diverges :
  (indices <> [] /\ 2 ^ 32 < size indices) \/
  (indices = [] /\ 2 ^ 32 < size vertices) ->
  fromFanIndices vertices indices = inl Diverges.
Proof. apply fromFanIndices_fuel_diverges. Qed.

Lemma fromFanIndices_fuel_more (fuel : nat) (r : vector uint16_t) :
  fromFanIndices_fuel fuel vertices indices = inr r ->
  fromFanIndices_fuel (S fuel) vertices indices = inr r.
Proof.
  unfold fromFanIndices_fuel.
  destruct (size indices >? 0).
  - destruct (size indices <? 3); [trivial|].
    destruct (at_index indices 0) as [e|c]; [trivial|].
    cbn [bind Monad_either]. apply unroll_explicit_more_fuel.
  - destruct (size vertices <? 3); [trivial|].
    apply unroll_implicit_more_fuel.
Qed.

Lemma fromFanIndices_fuel_le (fuel fuel' : nat) (r : vector uint16_t) :
  (fuel <= fuel')%nat ->
  fromFanIndices_fuel fuel vertices indices = inr r ->
  fromFanIndices_fuel fuel' vertices indices = inr r.
Proof.
  induction 1 as [|fuel' _ IH]; intros Hrun; [exact Hrun|].
  apply fromFanIndices_fuel_more, IH, Hrun.
Qed.

(** Whatever bound yields a result yields the result of [fromFanIndices]. *)
Lemma fan_fuel_irrelevant (fuel : nat) (r : vector uint16_t) :
  fromFanIndices_fuel fuel vertices indices = inr r ->
  fromFanIndices vertices indices = inr r.
Proof.
  intros Hrun. unfold fromFanIndices.
  destruct (Nat.le_ge_cases fuel (length indices + length vertices)) as [Hle|Hge].
  - apply (fromFanIndices_fuel_le fuel); assumption.
  - destruct (fromFanIndices_fuel (length indices + length vertices)
                vertices indices) as [e|r'] eqn:Hcanon.
    + assert (Hcases : (indices <> [] /\ size indices <= 2 ^ 32) \/
                       (indices = [] /\ size vertices <= 2 ^ 32) \/
                       ((indices <> [] /\ 2 ^ 32 < size indices) \/
                        (indices = [] /\ 2 ^ 32 < size vertices))).
      { destruct indices as [|a l] eqn:E.
        - destruct (Z_le_gt_dec (size vertices) (2 ^ 32));
            [right; left | right; right; right]; split; (reflexivity || lia).
        - destruct (Z_le_gt_dec (size (a :: l)) (2 ^ 32));
            [left | right; right; left]; split; (discriminate || lia). }
      destruct Hcases as [[Hne Hfit]|[[Hnil Hfit]|Hbig]].
      * pose proof (fromFanIndices_explicit Hne Hfit) as Hok.
        unfold fromFanIndices in Hok. congruence.
      * pose proof (fromFanIndices_implicit Hnil Hfit) as Hok.
        unfold fromFanIndices in Hok. congruence.
      * rewrite (fromFanIndices_fuel_diverges fuel Hbig) in Hrun. discriminate.
    + apply (fromFanIndices_fuel_le _ fuel) in Hcanon; [congruence | exact Hge].
Qed.

End FromFanIndices.

(** ** The fill loop *)

Section FillLoop.

Context {P R : Type}.
Variable vertex_data : Z -> outcome R.
Variable vertices : vector P.

Lemma fill_loop_step (fuel : nat) (capacity i : Z) (written : vector R) :
  fill_loop (S fuel) vertex_data vertices capacity i written
  = if i <? size vertices then
      record <- vertex_data i ;;
      if size written <? capacity then
        fill_loop fuel vertex_data vertices capacity (to_uint (i + 1))
          (push_back written record)
      else raise Overrun
    else ret written.
Proof. reflexivity. Qed.

Lemma size_push_back (written : vector R) (record : R) :
  size (push_back written record) = size written + 1.
Proof. unfold size, push_back. rewrite length_app. cbn [length]. lia. Qed.

(** While the body succeeds, the loop copies one record per vertex. *)
Lemma fill_loop_run (record_at : nat -> R) (m : nat) :
  forall (k fuel : nat) (written : vector R),
    (forall j : nat, (j < length vertices)%nat ->
                     vertex_data (Z.of_nat j) = inr (record_at j)) ->
    size vertices < 2 ^ 32 ->
    (k + m = length vertices)%nat ->
    size written = Z.of_nat k ->
    (m < fuel)%nat ->
    fill_loop fuel vertex_data vertices (size vertices) (Z.of_nat k) written
    = inr (written ++ map record_at (seq k m)).
Proof.
  induction m as [|m IH]; intros k fuel written Hbody Hfit Hlen Hsize Hfuel;
    destruct fuel as [|fuel]; try lia; rewrite fill_loop_step.
  - replace (Z.of_nat k <? size vertices) with false
      by (symmetry; apply Z.ltb_ge; unfold size; lia).
    cbn [seq map]. rewrite app_nil_r. reflexivity.
  - unfold size in Hfit.
    replace (Z.of_nat k <? size vertices) with true
      by (symmetry; apply Z.ltb_lt; unfold size; lia).
    rewrite Hbody by lia. cbn [bind Monad_either].
    replace (size written <? size vertices) with true
      by (symmetry; apply Z.ltb_lt; unfold size in *; lia).
    rewrite (to_uint_small (Z.of_nat k + 1)) by lia.
    replace (Z.of_nat k + 1) with (Z.of_nat (S k)) by lia.
    rewrite (IH (S k) fuel); try assumption; try lia.
    + unfold push_back. rewrite <- app_assoc. reflexivity.
    + unfold size, push_back. rewrite length_app. cbn [length].
      unfold size in Hsize. lia.
Qed.

(** The first fault of the body is the fault of the loop. *)
Lemma fill_loop_fault (record_at : nat -> R) (e : fault) (c : nat) (m : nat) :
  forall (k fuel : nat) (written : vector R),
    (forall j : nat, (j < c)%nat -> vertex_data (Z.of_nat j) = inr (record_at j)) ->
    vertex_data (Z.of_nat c) = inl e ->
    (c < length vertices)%nat ->
    Z.of_nat c < 2 ^ 32 ->
    (k + m = c)%nat ->
    size written = Z.of_nat k ->
    (m < fuel)%nat ->
    fill_loop fuel vertex_data vertices (size vertices) (Z.of_nat k) written
    = inl e.
Proof.
  induction m as [|m IH];
    intros k fuel written Hbody Hfault Hc Hfit Hlen Hsize Hfuel;
    destruct fuel as [|fuel]; try lia; rewrite fill_loop_step;
    (replace (Z.of_nat k <? size vertices) with true
      by (symmetry; apply Z.ltb_lt; unfold size; lia)).
  - replace k with c by lia. rewrite Hfault. reflexivity.
  - rewrite Hbody by lia. cbn [bind Monad_either].
    replace (size written <? size vertices) with true
      by (symmetry; apply Z.ltb_lt; unfold size in *; lia).
    rewrite (to_uint_small (Z.of_nat k + 1)) by lia.
    replace (Z.of_nat k + 1) with (Z.of_nat (S k)) by lia.
    apply IH; try assumption; try lia.
    rewrite size_push_back. lia.
Qed.

(** With [2^32] vertices or more the counter wraps before the loop
    condition fails: the loop yields no result. *)
Lemma fill_loop_wraps (fuel : nat) :
  forall (capacity i : Z) (written r : vector R),
    2 ^ 32 <= size vertices ->
    0 <= i < 2 ^ 32 ->
    fill_loop fuel vertex_data vertices capacity i written <> inr r.
Proof.
  induction fuel as [|fuel IH]; intros capacity i written r Hbig Hi.
  - discriminate.
  - rewrite fill_loop_step.
    replace (i <? size vertices) with true by (symmetry; apply Z.ltb_lt; lia).
    destruct (vertex_data i) as [e|record]; [discriminate|].
    cbn [bind Monad_either].
    destruct (size written <? capacity); [|discriminate].
    apply IH; [exact Hbig | apply to_uint_range].
Qed.

(** Where the body reads in range at every counter below the vertex
    count, the loop never reads out of range. *)
Lemma fill_loop_in_range (fuel : nat) :
  forall (capacity i : Z) (written : vector R),
    (forall j : Z, 0 <= j < size vertices -> vertex_data j <> inl OutOfRange) ->
    0 <= i ->
    fill_loop fuel vertex_data vertices capacity i written <> inl OutOfRange.
Proof.
  induction fuel as [|fuel IH]; intros capacity i written Hbody Hi.
  - discriminate.
  - rewrite fill_loop_step.
    destruct (i <? size vertices) eqn:Hlt; [|discriminate].
    apply Z.ltb_lt in Hlt.
    destruct (vertex_data i) as [e|record] eqn:Hrec.
    + cbn [bind Monad_either]. intros Heq. injection Heq as ->.
      apply (Hbody i); [lia | exact Hrec].
    + cbn [bind Monad_either].
      destruct (size written <? capacity); [|discriminate].
      apply IH; [exact Hbody | pose proof (to_uint_range (i + 1)); lia].
Qed.

Lemma fill_vertices_run (record_at : nat -> R) :
  (forall j : nat, (j < length vertices)%nat ->
                   vertex_data (Z.of_nat j) = inr (record_at j)) ->
  size vertices < 2 ^ 32 ->
  fill_vertices vertex_data vertices (size vertices)
  = inr (map record_at (seq 0 (length vertices))).
Proof.
  intros Hbody Hfit. unfold fill_vertices.
  change 0 with (Z.of_nat 0).
  rewrite (fill_loop_run record_at (length vertices)); try assumption;
    try reflexivity.
  unfold size. rewrite Nat2Z.id. lia.
Qed.

Lemma fill_vertices_fault (record_at : nat -> R) (e : fault) (c : nat) :
  (forall j : nat, (j < c)%nat -> vertex_data (Z.of_nat j) = inr (record_at j)) ->
  vertex_data (Z.of_nat c) = inl e ->
  (c < length vertices)%nat ->
  Z.of_nat c < 2 ^ 32 ->
  fill_vertices vertex_data vertices (size vertices) = inl e.
Proof.
  intros Hbody Hfault Hc Hfit. unfold fill_vertices.
  change 0 with (Z.of_nat 0).
  apply (fill_loop_fault record_at e c c); try assumption; try reflexivity.
  unfold size. rewrite Nat2Z.id. lia.
Qed.

Lemma fill_vertices_wraps (r : vector R) :
  2 ^ 32 <= size vertices ->
  fill_vertices vertex_data vertices (size vertices) <> inr r.
Proof.
  intros Hbig. unfold fill_vertices. apply fill_loop_wraps; [exact Hbig | lia].
Qed.

Lemma fill_vertices_in_range :
  (forall j : Z, 0 <= j < size vertices -> vertex_data j <> inl OutOfRange) ->
  fill_vertices vertex_data vertices (size vertices) <> inl OutOfRange.
Proof.
  intros Hbody. unfold fill_vertices. apply fill_loop_in_range; [exact Hbody | lia].
Qed.

(** The callback never runs out of the evaluations it is granted. *)
Lemma fill_loop_terminates (fuel : nat) :
  forall (i : Z) (written : vector R),
    (forall j : Z, vertex_data j <> inl Diverges) ->
    (length written <= length vertices)%nat ->
    (length vertices + 1 <= fuel + length written)%nat ->
    fill_loop fuel vertex_data vertices (size vertices) i written
    <> inl Diverges.
Proof.
  induction fuel as [|fuel IH]; intros i written Hbody Hroom Hfuel; [lia|].
  rewrite fill_loop_step.
  destruct (i <? size vertices); [|discriminate].
  destruct (vertex_data i) as [e|record] eqn:Hrec.
  - cbn [bind Monad_either]. intros Heq. apply (Hbody i). congruence.
  - cbn [bind Monad_either].
    destruct (size written <? size vertices) eqn:Hlt; [|discriminate].
    apply Z.ltb_lt in Hlt. unfold size in Hlt.
    apply IH; [exact Hbody | |]; unfold push_back; rewrite length_app;
      cbn [length]; lia.
Qed.

Lemma fill_vertices_terminates :
  (forall j : Z, vertex_data j <> inl Diverges) ->
  fill_vertices vertex_data vertices (size vertices) <> inl Diverges.
Proof.
  intros Hbody. unfold fill_vertices.
  apply fill_loop_terminates; [exact Hbody | cbn [length]; lia |].
  unfold size. rewrite Nat2Z.id. cbn [length]. lia.
Qed.

End FillLoop.

(** ** The order of binary32 numbers *)

Lemma SFcompare_finite_same_sign (s : bool) (m1 m2 : positive) (e1 e2 : Z) :
  SFcompare (S754_finite s m1 e1) (S754_finite s m2 e2)
  = Some (let c := match e1 ?= e2 with
                   | Eq => (m1 ?= m2)%positive
                   | Lt => Lt
                   | Gt => Gt
                   end in
          if s then CompOpp c else c).
Proof. destruct s; cbn [SFcompare]; destruct (e1 ?= e2); reflexivity. Qed.

(** The key of a finite number in the lexicographic order that
    [SFcompare] implements on numbers of one sign. *)
Lemma finite_compare_spec (m1 m2 : positive) (e1 e2 : Z) :
  match (match e1 ?= e2 with
         | Eq => (m1 ?= m2)%positive
         | Lt => Lt
         | Gt => Gt
         end) with
  | Eq => e1 = e2 /\ m1 = m2
  | Lt => e1 < e2 \/ (e1 = e2 /\ (m1 < m2)%positive)
  | Gt => e2 < e1 \/ (e1 = e2 /\ (m2 < m1)%positive)
  end.
Proof.
  destruct (Z.compare_spec e1 e2) as [He|He|He].
  - destruct (Pos.compare_spec m1 m2) as [Hm|Hm|Hm]; auto.
  - left. exact He.
  - left. exact He.
Qed.

Lemma SFcompare_refl (x : Scalar) :
  is_nan x = false -> SFcompare x x = Some Eq.
Proof.
  destruct x as [s|s| |s m e]; intros Hx; try discriminate Hx.
  - reflexivity.
  - destruct s; reflexivity.
  - rewrite SFcompare_finite_same_sign, Z.compare_refl, Pos.compare_refl.
    destruct s; reflexivity.
Qed.

Lemma SFcompare_swap (x y : Scalar) (c : comparison) :
  SFcompare x y = Some c -> SFcompare y x = Some (CompOpp c).
Proof.
  destruct x as [sx|sx| |sx mx ex], y as [sy|sy| |sy my ey];
    try destruct sx; try destruct sy; cbn [SFcompare];
    intros Hc; try discriminate Hc; injection Hc as <-; try reflexivity.
  - change (Pos.compare_cont Eq my mx) with (my ?= mx)%positive.
    change (Pos.compare_cont Eq mx my) with (mx ?= my)%positive.
    rewrite (Z.compare_antisym ex ey), (Pos.compare_antisym mx my).
    destruct (ex ?= ey); reflexivity.
  - change (Pos.compare_cont Eq my mx) with (my ?= mx)%positive.
    change (Pos.compare_cont Eq mx my) with (mx ?= my)%positive.
    rewrite (Z.compare_antisym ex ey), (Pos.compare_antisym mx my).
    destruct (ex ?= ey); reflexivity.
Qed.

Lemma SFcompare_defined (x y : Scalar) :
  is_nan x = false -> is_nan y = false -> exists c, SFcompare x y = Some c.
Proof.
  destruct x as [sx|sx| |sx mx ex], y as [sy|sy| |sy my ey];
    intros Hx Hy; try discriminate Hx; try discriminate Hy;
    cbn [SFcompare]; eexists; reflexivity.
Qed.

Lemma SFltb_not_nan (x y : Scalar) :
  SFltb x y = true -> is_nan x = false /\ is_nan y = false.
Proof.
  unfold SFltb.
  destruct x as [sx|sx| |sx mx ex], y as [sy|sy| |sy my ey];
    cbn [SFcompare is_nan]; intros Hlt; try discriminate Hlt; auto.
Qed.

Lemma SFleb_not_nan (x y : Scalar) :
  SFleb x y = true -> is_nan x = false /\ is_nan y = false.
Proof.
  unfold SFleb.
  destruct x as [sx|sx| |sx mx ex], y as [sy|sy| |sy my ey];
    cbn [SFcompare is_nan]; intros Hlt; try discriminate Hlt; auto.
Qed.

(** Among numbers, "not below" is "at least". *)
Lemma SFltb_false_leb (x y : Scalar) :
  is_nan x = false -> is_nan y = false ->
  SFltb x y = false -> SFleb y x = true.
Proof.
  intros Hx Hy Hlt.
  destruct (SFcompare_defined x y Hx Hy) as [c Hc].
  unfold SFltb in Hlt. unfold SFleb.
  rewrite (SFcompare_swap x y c Hc). rewrite Hc in Hlt.
  destruct c; try reflexivity. discriminate Hlt.
Qed.

Lemma SFleb_refl (x : Scalar) : is_nan x = false -> SFleb x x = true.
Proof. intros Hx. unfold SFleb. rewrite SFcompare_refl by exact Hx. reflexivity. Qed.

Lemma SFleb_ltb_trans (x y z : Scalar) :
  SFleb x y = true -> SFltb y z = true -> SFltb x z = true.
Proof.
  unfold SFleb, SFltb.
  destruct x as [sx|sx| |sx mx ex], y as [sy|sy| |sy my ey],
           z as [sz|sz| |sz mz ez];
    try destruct sx; try destruct sy; try destruct sz;
    try (cbn [SFcompare]; intros Hxy Hyz;
         first [discriminate Hxy | discriminate Hyz | reflexivity]).
  - rewrite !SFcompare_finite_same_sign.
    pose proof (finite_compare_spec mx my ex ey) as Hxy.
    pose proof (finite_compare_spec my mz ey ez) as Hyz.
    pose proof (finite_compare_spec mx mz ex ez) as Hxz.
    destruct (match ex ?= ey with Eq => (mx ?= my)%positive | Lt => Lt | Gt => Gt end);
    destruct (match ey ?= ez with Eq => (my ?= mz)%positive | Lt => Lt | Gt => Gt end);
    destruct (match ex ?= ez with Eq => (mx ?= mz)%positive | Lt => Lt | Gt => Gt end);
    cbn; intros H1 H2; try discriminate H1; try discriminate H2;
      try reflexivity; exfalso; lia.
  - rewrite !SFcompare_finite_same_sign.
    pose proof (finite_compare_spec mx my ex ey) as Hxy.
    pose proof (finite_compare_spec my mz ey ez) as Hyz.
    pose proof (finite_compare_spec mx mz ex ez) as Hxz.
    destruct (match ex ?= ey with Eq => (mx ?= my)%positive | Lt => Lt | Gt => Gt end);
    destruct (match ey ?= ez with Eq => (my ?= mz)%positive | Lt => Lt | Gt => Gt end);
    destruct (match ex ?= ez with Eq => (mx ?= mz)%positive | Lt => Lt | Gt => Gt end);
    cbn; intros H1 H2; try discriminate H1; try discriminate H2;
      try reflexivity; exfalso; lia.
Qed.

(** ** Clamping *)

Lemma SFltb_nan_l (y : Scalar) : SFltb S754_nan y = false.
Proof. reflexivity. Qed.

Lemma SFltb_nan_r (x : Scalar) : SFltb x S754_nan = false.
Proof. destruct x; reflexivity. Qed.

(** [std::clamp] returns a NaN unchanged. *)
Lemma std_clamp_nan (lo hi : Scalar) : std_clamp S754_nan lo hi = S754_nan.
Proof. unfold std_clamp. rewrite SFltb_nan_l, SFltb_nan_r. reflexivity. Qed.

(** [std::clamp] of a number lies between the bounds, and below whatever
    the upper bound is below. *)
Lemma std_clamp_bounds (v lo hi top : Scalar) :
  is_nan v = false ->
  SFleb lo hi = true ->
  SFltb hi top = true ->
  SFleb lo (std_clamp v lo hi) = true /\
  SFleb (std_clamp v lo hi) hi = true /\
  SFltb (std_clamp v lo hi) top = true.
Proof.
  intros Hv Hle Hlt.
  destruct (SFleb_not_nan lo hi Hle) as [Hlo Hhi].
  unfold std_clamp.
  destruct (SFltb v lo) eqn:Hbelow; [|destruct (SFltb hi v) eqn:Habove].
  - split; [apply SFleb_refl; exact Hlo|].
    split; [exact Hle|]. apply (SFleb_ltb_trans lo hi top); assumption.
  - split; [exact Hle|]. split; [apply SFleb_refl; exact Hhi | exact Hlt].
  - assert (Hvhi : SFleb v hi = true) by (apply SFltb_false_leb; assumption).
    split; [apply SFltb_false_leb; assumption|].
    split; [exact Hvhi|]. apply (SFleb_ltb_trans v hi top); assumption.
Qed.

Lemma at_index_fault {A : Type} (v : vector A) (i : Z) (e : fault) :
  at_index v i = inl e -> e = OutOfRange.
Proof.
  unfold at_index. destruct (nth_error v (Z.to_nat i)); [discriminate|].
  intros Heq. injection Heq as <-. reflexivity.
Qed.

(** ** The buffer builders *)

Section BuilderFacts.
Context `{Collaborators}.

Variable g : VerticesGeometry.
Variable host : HostBuffer.
Variable entity : Entity.
Variable pass : RenderPass.

Lemma view_contents_last (a : allocation) (bytes : Z) (rest : HostBuffer) :
  view_contents ((host ++ [a]) ++ rest)
    {| buffer := Some (length host); range_length := bytes |} = Some a.
Proof.
  unfold view_contents. cbn [buffer].
  rewrite <- app_assoc. rewrite nth_error_app2 by lia.
  rewrite Nat.sub_diag. reflexivity.
Qed.

(** The index half of every builder. *)
Lemma emplace_indices_invariant (a : allocation) (vertex_view : BufferView) :
  size_invariant g host (fst (emplace_indices g (host ++ [a])))
    (make_result g vertex_view (snd (emplace_indices g (host ++ [a])))
       entity pass).
Proof.
  unfold size_invariant, emplace_indices, make_result, Emplace.
  cbn [result_vertex_buffer vertex_count index_type index_buffer].
  destruct (indices_ g) as [|i0 rest] eqn:Hidx.
  - change (size (@nil uint16_t) >? 0) with false. cbv iota. cbn [fst snd].
    split; [congruence|]. intros _.
    repeat split. rewrite length_app. cbn [length]. lia.
  - replace (size (i0 :: rest) >? 0) with true
      by (symmetry; apply Z.gtb_lt; unfold size; cbn [length]; lia).
    cbv iota. cbn [fst snd].
    split; [|discriminate]. intros _.
    repeat split.
    + unfold view_contents. cbn [buffer].
      rewrite nth_error_app2 by lia. rewrite Nat.sub_diag. reflexivity.
    + rewrite !length_app. cbn [length]. lia.
Qed.

Lemma GetPositionBuffer_eq :
  GetPositionBuffer g host entity pass
  = (let host1 := host ++ [PositionData (vertices_ g)] in
     let vertex_view :=
       {| buffer := Some (length host);
          range_length := size (vertices_ g) * sizeof_float * 2 |} in
     (fst (emplace_indices g host1),
      make_result g vertex_view (snd (emplace_indices g host1)) entity pass)).
Proof.
  unfold GetPositionBuffer, Emplace. cbv zeta.
  destruct (emplace_indices g (host ++ [PositionData (vertices_ g)])).
  reflexivity.
Qed.

(** A colour builder whose fill callback succeeds. *)
Lemma GetPositionColorBuffer_filled (data : vector ColorVertex.t) :
  fill_vertices (color_vertex_at g) (vertices_ g) (size (vertices_ g)) = inr data ->
  GetPositionColorBuffer g host entity pass
  = inr (let host1 := host ++ [ColorVertexData data] in
         let vertex_view :=
           {| buffer := Some (length host);
              range_length := size (vertices_ g) * sizeof_ColorVertex |} in
         (fst (emplace_indices g host1),
          make_result g vertex_view (snd (emplace_indices g host1)) entity pass)).
Proof.
  intros Hfill. unfold GetPositionColorBuffer, Emplace_with, Emplace. cbv zeta.
  rewrite Hfill. cbn [bind ret Monad_either].
  destruct (emplace_indices g (host ++ [ColorVertexData data])).
  reflexivity.
Qed.

Lemma GetPositionColorBuffer_faulted (e : fault) :
  fill_vertices (color_vertex_at g) (vertices_ g) (size (vertices_ g)) = inl e ->
  GetPositionColorBuffer g host entity pass = inl e.
Proof.
  intros Hfill. unfold GetPositionColorBuffer, Emplace_with. cbv zeta.
  rewrite Hfill. reflexivity.
Qed.

Variable texture_coverage : Rect.t.
Variable effect_transform : Matrix.

Lemma GetPositionUVColorBuffer_filled (data : vector BlendVertex.t) :
  fill_vertices
    (blend_vertex_at g
       (Matrix_mul (GetNormalizingTransform texture_coverage) effect_transform)
       (HasTextureCoordinates g))
    (vertices_ g) (size (vertices_ g)) = inr data ->
  GetPositionUVColorBuffer g texture_coverage effect_transform host entity pass
  = inr (let host1 := host ++ [BlendVertexData data] in
         let vertex_view :=
           {| buffer := Some (length host);
              range_length := size (vertices_ g) * sizeof_BlendVertex |} in
         (fst (emplace_indices g host1),
          make_result g vertex_view (snd (emplace_indices g host1)) entity pass)).
Proof.
  intros Hfill. unfold GetPositionUVColorBuffer, Emplace_with, Emplace. cbv zeta.
  rewrite Hfill. cbn [bind ret Monad_either].
  destruct (emplace_indices g (host ++ [BlendVertexData data])).
  reflexivity.
Qed.

Lemma GetPositionUVColorBuffer_faulted (e : fault) :
  fill_vertices
    (blend_vertex_at g
       (Matrix_mul (GetNormalizingTransform texture_coverage) effect_transform)
       (HasTextureCoordinates g))
    (vertices_ g) (size (vertices_ g)) = inl e ->
  GetPositionUVColorBuffer g texture_coverage effect_transform host entity pass
  = inl e.
Proof.
  intros Hfill. unfold GetPositionUVColorBuffer, Emplace_with. cbv zeta.
  rewrite Hfill. reflexivity.
Qed.

(** *** The loop bodies *)

Lemma color_vertex_at_in_range (j : nat) :
  (j < length (vertices_ g))%nat ->
  (j < length (colors_ g))%nat ->
  color_vertex_at g (Z.of_nat j) = inr (color_record g j).
Proof.
  intros Hv Hc. unfold color_vertex_at, color_record.
  rewrite (at_index_nth (vertices_ g) j origin Hv).
  rewrite (at_index_nth (colors_ g) j white Hc).
  reflexivity.
Qed.

Lemma color_vertex_at_past_colors (i : Z) :
  0 <= i < size (vertices_ g) ->
  size (colors_ g) <= i ->
  color_vertex_at g i = inl OutOfRange.
Proof.
  intros Hv Hc. unfold color_vertex_at.
  destruct (at_index_in_range (vertices_ g) i Hv) as [p ->].
  rewrite (at_index_past_end (colors_ g) i Hc). reflexivity.
Qed.

Lemma HasTextureCoordinates_true :
  HasTextureCoordinates g = true <-> texture_coordinates_ g <> [].
Proof.
  unfold HasTextureCoordinates, size.
  destruct (texture_coordinates_ g) as [|p l]; cbn [length].
  - split; [discriminate | congruence].
  - split; [discriminate | intros _; apply Z.gtb_lt; lia].
Qed.

Lemma blend_vertex_at_in_range (m : Matrix) (j : nat) :
  (j < length (vertices_ g))%nat ->
  (j < length (colors_ g))%nat ->
  (HasTextureCoordinates g = true ->
   (j < length (texture_coordinates_ g))%nat) ->
  blend_vertex_at g m (HasTextureCoordinates g) (Z.of_nat j)
  = inr (blend_record g m j).
Proof.
  intros Hv Hc Ht. unfold blend_vertex_at, blend_record, uv_source.
  rewrite (at_index_nth (vertices_ g) j origin Hv).
  rewrite (at_index_nth (colors_ g) j white Hc).
  destruct (HasTextureCoordinates g).
  - rewrite (at_index_nth (texture_coordinates_ g) j origin (Ht eq_refl)).
    reflexivity.
  - reflexivity.
Qed.

(** Whether texture coordinates are present or not, the body reads
    [colors_[i]]. *)
Lemma blend_vertex_at_past_colors (m : Matrix) (has_texture_coordinates : bool)
    (i : Z) :
  0 <= i < size (vertices_ g) ->
  size (colors_ g) <= i ->
  blend_vertex_at g m has_texture_coordinates i = inl OutOfRange.
Proof.
  intros Hv Hc. unfold blend_vertex_at.
  destruct (at_index_in_range (vertices_ g) i Hv) as [p ->].
  cbn [bind Monad_either].
  rewrite (at_index_past_end (colors_ g) i Hc).
  destruct has_texture_coordinates.
  - destruct (at_index (texture_coordinates_ g) i) as [e|q] eqn:Ht.
    + rewrite (at_index_fault _ _ _ Ht). reflexivity.
    + reflexivity.
  - reflexivity.
Qed.

Lemma blend_vertex_at_past_texture (m : Matrix) (i : Z) :
  0 <= i < size (vertices_ g) ->
  size (texture_coordinates_ g) <= i ->
  blend_vertex_at g m true i = inl OutOfRange.
Proof.
  intros Hv Ht. unfold blend_vertex_at.
  destruct (at_index_in_range (vertices_ g) i Hv) as [p ->].
  cbn [bind Monad_either].
  rewrite (at_index_past_end (texture_coordinates_ g) i Ht). reflexivity.
Qed.

Lemma color_vertex_at_fault (i : Z) (e : fault) :
  color_vertex_at g i = inl e -> e = OutOfRange.
Proof.
  unfold color_vertex_at.
  destruct (at_index (vertices_ g) i) as [e1|p] eqn:H1.
  - cbn [bind Monad_either]. intros Heq. injection Heq as <-.
    apply (at_index_fault _ _ _ H1).
  - cbn [bind Monad_either].
    destruct (at_index (colors_ g) i) as [e2|c] eqn:H2; [|discriminate].
    intros Heq. injection Heq as <-. apply (at_index_fault _ _ _ H2).
Qed.

Lemma blend_vertex_at_fault (m : Matrix) (b : bool) (i : Z) (e : fault) :
  blend_vertex_at g m b i = inl e -> e = OutOfRange.
Proof.
  unfold blend_vertex_at.
  destruct (at_index (vertices_ g) i) as [e1|p] eqn:H1.
  - cbn [bind Monad_either]. intros Heq. injection Heq as <-.
    apply (at_index_fault _ _ _ H1).
  - cbn [bind Monad_either].
    destruct (at_index (colors_ g) i) as [e3|c] eqn:H3;
      destruct b;
      try destruct (at_index (texture_coordinates_ g) i) as [e2|q] eqn:H2;
      cbn [bind Monad_either]; intros Heq; try discriminate Heq;
      injection Heq as <-;
      first [apply (at_index_fault _ _ _ H2) | apply (at_index_fault _ _ _ H3)].
Qed.

End BuilderFacts.

(** *** The fill callbacks *)

Section FillFacts.
Context `{Collaborators}.

Variable g : VerticesGeometry.

Lemma fill_color_run :
  size (vertices_ g) < 2 ^ 32 ->
  size (vertices_ g) <= size (colors_ g) ->
  fill_vertices (color_vertex_at g) (vertices_ g) (size (vertices_ g))
  = inr (map (color_record g) (seq 0 (length (vertices_ g)))).
Proof.
  intros Hfit Hcolors. apply fill_vertices_run; [|exact Hfit].
  intros j Hj. apply color_vertex_at_in_range; [exact Hj|].
  unfold size in Hcolors. lia.
Qed.

Lemma fill_color_short :
  size (colors_ g) < size (vertices_ g) ->
  size (colors_ g) < 2 ^ 32 ->
  fill_vertices (color_vertex_at g) (vertices_ g) (size (vertices_ g))
  = inl OutOfRange.
Proof.
  intros Hshort Hfit. unfold size in Hshort.
  apply (fill_vertices_fault _ _ (color_record g) OutOfRange
           (length (colors_ g))).
  - intros j Hj. apply color_vertex_at_in_range; lia.
  - apply color_vertex_at_past_colors; unfold size; lia.
  - lia.
  - exact Hfit.
Qed.

Lemma fill_color_inv (data : vector ColorVertex.t) :
  fill_vertices (color_vertex_at g) (vertices_ g) (size (vertices_ g))
  = inr data ->
  size (vertices_ g) < 2 ^ 32 /\
  size (vertices_ g) <= size (colors_ g) /\
  data = map (color_record g) (seq 0 (length (vertices_ g))).
Proof.
  intros Hfill.
  destruct (Z_lt_ge_dec (size (vertices_ g)) (2 ^ 32)) as [Hfit|Hbig].
  - destruct (Z_lt_ge_dec (size (colors_ g)) (size (vertices_ g)))
      as [Hshort|Hcolors].
    + rewrite fill_color_short in Hfill by lia. discriminate Hfill.
    + rewrite fill_color_run in Hfill by lia.
      injection Hfill as <-. repeat split; lia.
  - exfalso. apply (fill_vertices_wraps _ _ data) in Hfill; [exact Hfill | lia].
Qed.

Variable uv_transform : Matrix.

Lemma fill_blend_run :
  size (vertices_ g) < 2 ^ 32 ->
  size (vertices_ g) <= size (colors_ g) ->
  (HasTextureCoordinates g = true ->
   size (vertices_ g) <= size (texture_coordinates_ g)) ->
  fill_vertices (blend_vertex_at g uv_transform (HasTextureCoordinates g))
    (vertices_ g) (size (vertices_ g))
  = inr (map (blend_record g uv_transform) (seq 0 (length (vertices_ g)))).
Proof.
  intros Hfit Hcolors Htex. apply fill_vertices_run; [|exact Hfit].
  intros j Hj. unfold size in *.
  apply blend_vertex_at_in_range; [exact Hj | lia |].
  intros Hhas. specialize (Htex Hhas). lia.
Qed.

Lemma fill_blend_short :
  (first_fault g < length (vertices_ g))%nat ->
  Z.of_nat (first_fault g) < 2 ^ 32 ->
  fill_vertices (blend_vertex_at g uv_transform (HasTextureCoordinates g))
    (vertices_ g) (size (vertices_ g))
  = inl OutOfRange.
Proof.
  intros Hshort Hfit.
  apply (fill_vertices_fault _ _ (blend_record g uv_transform) OutOfRange
           (first_fault g)); try assumption.
  - intros j Hj. unfold first_fault in Hj, Hshort.
    apply blend_vertex_at_in_range;
      destruct (HasTextureCoordinates g); intros; try discriminate; lia.
  - unfold first_fault in *.
    destruct (HasTextureCoordinates g) eqn:Hhas.
    + destruct (Nat.le_ge_cases (length (colors_ g))
                  (length (texture_coordinates_ g))) as [Hle|Hge].
      * apply blend_vertex_at_past_colors; unfold size; lia.
      * apply blend_vertex_at_past_texture; unfold size; lia.
    + apply blend_vertex_at_past_colors; unfold size; lia.
Qed.

Lemma fill_blend_inv (data : vector BlendVertex.t) :
  fill_vertices (blend_vertex_at g uv_transform (HasTextureCoordinates g))
    (vertices_ g) (size (vertices_ g)) = inr data ->
  size (vertices_ g) < 2 ^ 32 /\
  size (vertices_ g) <= size (colors_ g) /\
  (HasTextureCoordinates g = true ->
   size (vertices_ g) <= size (texture_coordinates_ g)) /\
  data = map (blend_record g uv_transform) (seq 0 (length (vertices_ g))).
Proof.
  intros Hfill.
  destruct (Z_lt_ge_dec (size (vertices_ g)) (2 ^ 32)) as [Hfit|Hbig].
  - destruct (Nat.lt_ge_cases (first_fault g) (length (vertices_ g)))
      as [Hshort|Hlong].
    + rewrite fill_blend_short in Hfill by (unfold size in Hfit; lia).
      discriminate Hfill.
    + assert (Hcolors : size (vertices_ g) <= size (colors_ g)).
      { unfold first_fault, size in *.
        destruct (HasTextureCoordinates g); lia. }
      assert (Htex : HasTextureCoordinates g = true ->
                     size (vertices_ g) <= size (texture_coordinates_ g)).
      { intros Hhas. unfold first_fault, size in *.
        rewrite Hhas in Hlong. lia. }
      rewrite fill_blend_run in Hfill by assumption.
      injection Hfill as <-. repeat split; assumption.
  - exfalso. apply (fill_vertices_wraps _ _ data) in Hfill; [exact Hfill | lia].
Qed.

Lemma fill_blend_short_colors :
  size (colors_ g) < size (vertices_ g) ->
  size (colors_ g) < 2 ^ 32 ->
  fill_vertices (blend_vertex_at g uv_transform (HasTextureCoordinates g))
    (vertices_ g) (size (vertices_ g)) = inl OutOfRange.
Proof.
  intros Hshort Hfit. unfold size in *.
  apply fill_blend_short; unfold first_fault;
    destruct (HasTextureCoordinates g); lia.
Qed.

(** Attributes as long as the vertices: no read of the callback is out of
    range. *)
Lemma fill_blend_in_range :
  attributes_fit g ->
  fill_vertices (blend_vertex_at g uv_transform (HasTextureCoordinates g))
    (vertices_ g) (size (vertices_ g)) <> inl OutOfRange.
Proof.
  intros [Hcolors Htex]. apply fill_vertices_in_range.
  intros j Hj. unfold blend_vertex_at.
  destruct (at_index_in_range (vertices_ g) j Hj) as [p ->].
  destruct (at_index_in_range (colors_ g) j) as [c ->]; [lia|].
  cbn [bind Monad_either].
  destruct (HasTextureCoordinates g) eqn:Hhas.
  - destruct Htex as [Hnil|Hlen].
    + apply HasTextureCoordinates_true in Hhas. contradiction.
    + destruct (at_index_in_range (texture_coordinates_ g) j) as [q ->]; [lia|].
      discriminate.
  - discriminate.
Qed.

Lemma fill_color_in_range :
  size (colors_ g) = size (vertices_ g) ->
  fill_vertices (color_vertex_at g) (vertices_ g) (size (vertices_ g))
  <> inl OutOfRange.
Proof.
  intros Hcolors. apply fill_vertices_in_range.
  intros j Hj. unfold color_vertex_at.
  destruct (at_index_in_range (vertices_ g) j Hj) as [p ->].
  destruct (at_index_in_range (colors_ g) j) as [c ->]; [lia|].
  discriminate.
Qed.

(** Neither callback runs out of the evaluations of its loop condition
    that [fill_vertices] grants: the fault [Diverges] is never theirs. *)
Lemma fill_color_terminates :
  fill_vertices (color_vertex_at g) (vertices_ g) (size (vertices_ g))
  <> inl Diverges.
Proof.
  apply fill_vertices_terminates. intros j Hfault.
  apply color_vertex_at_fault in Hfault. discriminate Hfault.
Qed.

Lemma fill_blend_terminates :
  fill_vertices (blend_vertex_at g uv_transform (HasTextureCoordinates g))
    (vertices_ g) (size (vertices_ g)) <> inl Diverges.
Proof.
  apply fill_vertices_terminates. intros j Hfault.
  apply blend_vertex_at_fault in Hfault. discriminate Hfault.
Qed.

End FillFacts.

(** ** Sample data *)

Lemma size_points (n : Z) : 0 <= n -> size (points n) = n.
Proof. intros Hn. unfold size, points. rewrite repeat_length. lia. Qed.

Lemma size_zeros (n : Z) : 0 <= n -> size (zeros n) = n.
Proof. intros Hn. unfold size, zeros. rewrite repeat_length. lia. Qed.

Lemma length_points (n : Z) : length (points n) = Z.to_nat n.
Proof. unfold points. apply repeat_length. Qed.

Lemma inr_injective {A : Type} (a b : A) :
  @inr fault A a = inr b -> a = b.
Proof. intros Heq. injection Heq as ->. reflexivity. Qed.

Lemma point_bounds_defined (pts : vector Point.t) :
  pts <> [] -> point_bounds pts <> None.
Proof. destruct pts; [congruence | discriminate]. Qed.

(** * The fan unroller *)

(** C1 (amended).  For the fan unroller with a non-empty explicit index
    list of at most [2^32] entries: fewer than three indices give the empty
    sequence; otherwise the result is the concatenation of the triples
    [(indices[0], indices[i], indices[i+1])] for [i] from [1] to
    [indices.length - 2], of length [3 * (indices.length - 2)].  The
    indices [[5,1,2,3]] give [[5,1,2, 5,2,3]]. *)
Theorem fan_explicit_unrolled {P : Type} (vertices : vector P)
    (indices : vector uint16_t) :
  indices <> [] ->
  size indices <= 2 ^ 32 ->
  (size indices < 3 -> fromFanIndices vertices indices = inr []) /\
  (3 <= size indices ->
     fromFanIndices vertices indices
     = inr (explicit_triples indices (nth 0 indices 0) 1 (length indices - 2)) /\
     size (explicit_triples indices (nth 0 indices 0) 1 (length indices - 2))
     = 3 * (size indices - 2)) /\
  fromFanIndices vertices [5; 1; 2; 3] = inr [5; 1; 2; 5; 2; 3].
Proof.
  intros Hne Hfit.
  pose proof (fromFanIndices_explicit vertices indices Hne Hfit) as Hrun.
  split; [|split].
  - intros Hshort. rewrite Hrun.
    replace (size indices <? 3) with true by (symmetry; apply Z.ltb_lt; lia).
    reflexivity.
  - intros Hlong. rewrite Hrun.
    replace (size indices <? 3) with false by (symmetry; apply Z.ltb_ge; lia).
    split; [reflexivity|].
    unfold size in *. rewrite explicit_triples_length. lia.
  - rewrite (fromFanIndices_explicit vertices [5; 1; 2; 3]).
    + reflexivity.
    + discriminate.
    + unfold size. cbn [length]. lia.
Qed.

Lemma fan_explicit_unrolled_witness :
  fromFanIndices [origin] [7; 8; 9; 7; 6]
  = inr (explicit_triples [7; 8; 9; 7; 6] 7 1 3).
Proof.
  destruct (fan_explicit_unrolled [origin] [7; 8; 9; 7; 6])
    as (_ & Hlong & _).
  - discriminate.
  - unfold size. cbn [length]. lia.
  - destruct Hlong as [Hrun _].
    + unfold size. cbn [length]. lia.
    + exact Hrun.
Defined.

(** C1, as stated, fails: with [2^32 + 1] indices the 32-bit counter [i]
    wraps to zero before it reaches [indices.size() - 1], and the loop never
    exits. *)
Lemma fan_explicit_counter_wraps :
  zeros (2 ^ 32 + 1) <> [] /\
  fromFanIndices (@nil Point.t) (zeros (2 ^ 32 + 1)) = inl Diverges.
Proof.
  assert (Hsize : size (zeros (2 ^ 32 + 1)) = 2 ^ 32 + 1)
    by (apply size_zeros; lia).
  assert (Hne : zeros (2 ^ 32 + 1) <> []).
  { intros Hnil. rewrite Hnil in Hsize. unfold size in Hsize.
    cbn [length] in Hsize. lia. }
  split; [exact Hne|].
  apply fan_diverges. left. split; [exact Hne | lia].
Qed.

(** C2 (amended).  For the fan unroller with an empty index list and at
    most [2^32] vertices: fewer than three vertices give the empty
    sequence; otherwise the result is the concatenation, for [i] from [1]
    to [vertices.length - 2], of the triples [(0, i mod 2^16, (i+1) mod
    2^16)], of length [3 * (vertices.length - 2)]; with at most [65536]
    vertices these are the triples [(0, i, i+1)].  Five vertices give
    [[0,1,2, 0,2,3, 0,3,4]]. *)
Theorem fan_implicit_unrolled {P : Type} (vertices : vector P) :
  size vertices <= 2 ^ 32 ->
  (size vertices < 3 -> fromFanIndices vertices [] = inr []) /\
  (3 <= size vertices ->
     fromFanIndices vertices []
     = inr (implicit_triples16 1 (length vertices - 2)) /\
     size (implicit_triples16 1 (length vertices - 2))
     = 3 * (size vertices - 2) /\
     (size vertices <= 65536 ->
      implicit_triples16 1 (length vertices - 2)
      = implicit_triples 1 (length vertices - 2))) /\
  fromFanIndices (points 5) [] = inr [0; 1; 2; 0; 2; 3; 0; 3; 4].
Proof.
  intros Hfit.
  pose proof (fromFanIndices_implicit vertices [] eq_refl Hfit) as Hrun.
  split; [|split].
  - intros Hshort. rewrite Hrun.
    replace (size vertices <? 3) with true by (symmetry; apply Z.ltb_lt; lia).
    reflexivity.
  - intros Hlong. rewrite Hrun.
    replace (size vertices <? 3) with false by (symmetry; apply Z.ltb_ge; lia).
    split; [reflexivity|]. unfold size in *. split.
    + rewrite implicit_triples16_length. lia.
    + intros Hsmall. apply implicit_triples16_exact. lia.
  - reflexivity.
Qed.

Lemma fan_implicit_unrolled_witness :
  fromFanIndices (points 4) [] = inr (implicit_triples16 1 2).
Proof.
  destruct (fan_implicit_unrolled (points 4)) as (_ & Hlong & _).
  - vm_compute. discriminate.
  - destruct Hlong as [Hrun _].
    + vm_compute. discriminate.
    + exact Hrun.
Defined.

(** C2, as stated, fails: with [65537] vertices the last triple is
    [(0, 65535, 65536)] and its last value does not fit sixteen bits. *)
Lemma fan_implicit_65537 :
  fromFanIndices (points 65537) []
  <> inr (implicit_triples 1 (length (points 65537) - 2)).
Proof.
  rewrite (fromFanIndices_implicit_long (points 65537) [] eq_refl)
    by (rewrite size_points; lia).
  intros Heq. apply inr_injective in Heq. revert Heq.
  apply implicit_triples16_wraps.
  rewrite length_points, Z2Nat.id; lia.
Qed.

(** C10 (amended).  In the implicit case the stored index values are the
    32-bit counter values reduced modulo [2^16].  For every vertex count
    [V] with [3 <= V <= 65536] the stored indices are the counter values
    themselves; for every [V] from [65537] up to [2^32] some stored index
    has wrapped around. *)
Theorem fan_implicit_narrowing {P : Type} (vertices : vector P) :
  3 <= size vertices <= 2 ^ 32 ->
  fromFanIndices vertices []
  = inr (flat_map
           (fun i => [0; Z.of_nat i mod 2 ^ 16; (Z.of_nat i + 1) mod 2 ^ 16])
           (seq 1 (length vertices - 2))) /\
  (size vertices <= 65536 ->
   fromFanIndices vertices [] = inr (implicit_triples 1 (length vertices - 2))) /\
  (65536 < size vertices ->
   fromFanIndices vertices [] <> inr (implicit_triples 1 (length vertices - 2))).
Proof.
  intros [Hlong Hfit].
  pose proof (fromFanIndices_implicit_long vertices [] eq_refl
                (conj Hlong Hfit)) as Hrun.
  split; [exact Hrun|]. rewrite Hrun. unfold size in *. split.
  - intros Hsmall. f_equal. apply implicit_triples16_exact. lia.
  - intros Hbig Heq. apply inr_injective in Heq. revert Heq.
    apply implicit_triples16_wraps. lia.
Qed.

Lemma fan_implicit_narrowing_witness :
  fromFanIndices (points 6) [] = inr (implicit_triples 1 4).
Proof.
  destruct (fan_implicit_narrowing (points 6)) as (_ & Hexact & _).
  - vm_compute. split; discriminate.
  - apply Hexact. vm_compute. discriminate.
Defined.

(** C10, as stated, fails at [V = 65537], inside the range it gives for
    exact indices: the counter value [65536] is stored as [0]. *)
Lemma fan_implicit_65537_last_index :
  3 <= size (points 65537) <= 65537 /\
  exists unrolled : vector uint16_t,
    fromFanIndices (points 65537) [] = inr unrolled /\
    last unrolled 1 = 0 /\
    last (implicit_triples 1 (length (points 65537) - 2)) 1 = 65536.
Proof.
  split; [rewrite size_points; lia|].
  exists (implicit_triples16 1 (length (points 65537) - 2)).
  assert (Hcount : (length (points 65537) - 2 = S (Z.to_nat 65534))%nat)
    by (rewrite length_points; lia).
  split; [|rewrite Hcount; split].
  - apply (fromFanIndices_implicit_long (points 65537) [] eq_refl).
    rewrite size_points; lia.
  - rewrite implicit_triples16_last.
    replace (Z.of_nat (1 + Z.to_nat 65534) + 1) with 65536 by lia.
    apply to_uint16_65536.
  - rewrite implicit_triples_last. lia.
Qed.

(** * The geometry object *)

(** C3.  Construction stores the fan unroller's output over the given
    vertices and indices when the mode is [kTriangleFan] and the given
    indices for every other mode; vertices, colours, texture coordinates,
    bounds and the mode field are stored as given. *)
Theorem VerticesGeometry_new_normalizes (vertices : vector Point.t)
    (indices : vector uint16_t) (texture_coordinates : vector Point.t)
    (colors : vector Color.t) (bounds : Rect.t) (vertex_mode : VertexMode.t) :
  VerticesGeometry_new vertices indices texture_coordinates colors bounds
    vertex_mode
  = match vertex_mode with
    | VertexMode.kTriangleFan =>
        match fromFanIndices vertices indices with
        | inr unrolled =>
            inr {| vertices_ := vertices;
                   colors_ := colors;
                   texture_coordinates_ := texture_coordinates;
                   indices_ := unrolled;
                   bounds_ := bounds;
                   vertex_mode_ := VertexMode.kTriangleFan |}
        | inl e => inl e
        end
    | _ =>
        inr {| vertices_ := vertices;
               colors_ := colors;
               texture_coordinates_ := texture_coordinates;
               indices_ := indices;
               bounds_ := bounds;
               vertex_mode_ := vertex_mode |}
    end.
Proof.
  unfold VerticesGeometry_new, NormalizeIndices.
  destruct vertex_mode; cbn [vertex_mode_ vertices_ indices_]; reflexivity.
Qed.

Lemma VerticesGeometry_new_mode (vertices : vector Point.t)
    (indices : vector uint16_t) (texture_coordinates : vector Point.t)
    (colors : vector Color.t) (bounds : Rect.t) (vertex_mode : VertexMode.t)
    (g : VerticesGeometry) :
  VerticesGeometry_new vertices indices texture_coordinates colors bounds
    vertex_mode = inr g ->
  vertex_mode_ g = vertex_mode.
Proof.
  unfold VerticesGeometry_new, NormalizeIndices.
  destruct vertex_mode; cbn [vertex_mode_ vertices_ indices_];
    try (intros Heq; apply inr_injective in Heq; subst g; reflexivity).
  destruct (fromFanIndices vertices indices); [discriminate|].
  cbn [bind ret Monad_either]. intros Heq. apply inr_injective in Heq.
  subst g. reflexivity.
Qed.

(** C6.  [GetPrimitiveType] is [kTriangle] for the modes [kTriangles] and
    [kTriangleFan] and [kTriangleStrip] for [kTriangleStrip]; it takes no
    other value, on any geometry and so on every constructed one. *)
Theorem GetPrimitiveType_closed (g : VerticesGeometry) :
  GetPrimitiveType g
  = match vertex_mode_ g with
    | VertexMode.kTriangles => PrimitiveType.kTriangle
    | VertexMode.kTriangleFan => PrimitiveType.kTriangle
    | VertexMode.kTriangleStrip => PrimitiveType.kTriangleStrip
    end /\
  (GetPrimitiveType g = PrimitiveType.kTriangle \/
   GetPrimitiveType g = PrimitiveType.kTriangleStrip) /\
  (forall vertices indices texture_coordinates colors bounds,
     VerticesGeometry_new vertices indices texture_coordinates colors bounds
       VertexMode.kTriangleFan = inr g ->
     GetPrimitiveType g = PrimitiveType.kTriangle).
Proof.
  unfold GetPrimitiveType. split; [|split].
  - destruct (vertex_mode_ g); reflexivity.
  - destruct (vertex_mode_ g); auto.
  - intros vertices indices texture_coordinates colors bounds Hnew.
    rewrite (VerticesGeometry_new_mode _ _ _ _ _ _ _ Hnew). reflexivity.
Qed.

Lemma size_positive_nonempty {A : Type} (v : vector A) :
  (size v >? 0) = true <-> v <> [].
Proof.
  unfold size. destruct v as [|a l]; cbn [length].
  - split; [discriminate | congruence].
  - split; [discriminate | intros _; apply Z.gtb_lt; lia].
Qed.

Lemma size_positive_empty {A : Type} (v : vector A) :
  (size v >? 0) = false <-> v = [].
Proof.
  unfold size. destruct v as [|a l]; cbn [length].
  - split; reflexivity.
  - split; [|discriminate].
    intros Hgt. exfalso.
    assert (Hpos : (Z.of_nat (S (length l)) >? 0) = true) by (apply Z.gtb_lt; lia).
    congruence.
Qed.

(** C7.  [GetVertexType] is [kColor] whenever colours are present, whether
    or not texture coordinates are; otherwise [kUV] whenever texture
    coordinates are present; otherwise [kPosition].  With both present the
    result is [kColor], not [kUV]. *)
Theorem GetVertexType_precedence (g : VerticesGeometry) :
  (colors_ g <> [] -> GetVertexType g = GeometryVertexType.kColor) /\
  (colors_ g = [] -> texture_coordinates_ g <> [] ->
   GetVertexType g = GeometryVertexType.kUV) /\
  (colors_ g = [] -> texture_coordinates_ g = [] ->
   GetVertexType g = GeometryVertexType.kPosition) /\
  (colors_ g <> [] -> texture_coordinates_ g <> [] ->
   GetVertexType g = GeometryVertexType.kColor /\
   GetVertexType g <> GeometryVertexType.kUV).
Proof.
  unfold GetVertexType, HasVertexColors, HasTextureCoordinates.
  split; [|split; [|split]].
  - intros Hc. apply size_positive_nonempty in Hc. rewrite Hc. reflexivity.
  - intros Hc Ht.
    apply size_positive_empty in Hc. apply size_positive_nonempty in Ht.
    rewrite Hc, Ht. reflexivity.
  - intros Hc Ht.
    apply size_positive_empty in Hc. apply size_positive_empty in Ht.
    rewrite Hc, Ht. reflexivity.
  - intros Hc Ht. apply size_positive_nonempty in Hc. rewrite Hc.
    split; [reflexivity | discriminate].
Qed.

Lemma GetVertexType_precedence_witness :
  GetVertexType sample_triangle = GeometryVertexType.kColor.
Proof.
  destruct (GetVertexType_precedence sample_triangle) as (Hcolor & _).
  apply Hcolor. discriminate.
Defined.

Section Coverage.
Context `{Collaborators}.

(** C8.  Given that the point bounds of a non-empty sequence exist,
    [GetTextureCoordinateCoverge] is absent exactly when the texture
    coordinates are empty or there is no vertex, and is otherwise the point
    bounds of the texture coordinates. *)
Theorem GetTextureCoordinateCoverge_absent (g : VerticesGeometry) :
  (forall pts : vector Point.t, pts <> [] -> MakePointBounds pts <> None) ->
  (GetTextureCoordinateCoverge g = None <->
   texture_coordinates_ g = [] \/ size (vertices_ g) = 0) /\
  (texture_coordinates_ g <> [] -> size (vertices_ g) <> 0 ->
   GetTextureCoordinateCoverge g = MakePointBounds (texture_coordinates_ g)).
Proof.
  intros Hbounds. unfold GetTextureCoordinateCoverge, HasTextureCoordinates.
  destruct (size (texture_coordinates_ g) >? 0) eqn:Hhas; cbn [negb].
  - apply size_positive_nonempty in Hhas.
    destruct (size (vertices_ g) =? 0) eqn:Hcount.
    + apply Z.eqb_eq in Hcount. split; [|congruence].
      split; [right; exact Hcount | reflexivity].
    + apply Z.eqb_neq in Hcount. split; [|reflexivity].
      split.
      * intros Hnone. exfalso. exact (Hbounds _ Hhas Hnone).
      * intros [Hnil|Hzero]; [contradiction Hhas | contradiction Hcount].
  - apply size_positive_empty in Hhas. split; [|congruence].
    split; [left; exact Hhas | reflexivity].
Qed.

End Coverage.

Lemma GetTextureCoordinateCoverge_absent_witness :
  GetTextureCoordinateCoverge uncolored_vertex
  = MakePointBounds (texture_coordinates_ uncolored_vertex).
Proof.
  destruct (@GetTextureCoordinateCoverge_absent reference_collaborators
              uncolored_vertex point_bounds_defined) as [_ Hpresent].
  apply Hpresent.
  - discriminate.
  - vm_compute. discriminate.
Defined.

(** * The buffer builders *)

Section BuilderClaims.
Context `{Collaborators}.

Variable g : VerticesGeometry.
Variable host : HostBuffer.
Variable entity : Entity.
Variable pass : RenderPass.

Lemma emplace_indices_extends (host1 : HostBuffer) :
  exists rest, fst (emplace_indices g host1) = host1 ++ rest.
Proof.
  unfold emplace_indices, Emplace.
  destruct (size (indices_ g) >? 0); cbn [fst].
  - eexists. reflexivity.
  - exists []. rewrite app_nil_r. reflexivity.
Qed.

Lemma GetPositionColorBuffer_inv (host' : HostBuffer) (r : GeometryResult) :
  GetPositionColorBuffer g host entity pass = inr (host', r) ->
  exists data,
    fill_vertices (color_vertex_at g) (vertices_ g) (size (vertices_ g))
    = inr data /\
    host' = fst (emplace_indices g (host ++ [ColorVertexData data])) /\
    r = make_result g
          {| buffer := Some (length host);
             range_length := size (vertices_ g) * sizeof_ColorVertex |}
          (snd (emplace_indices g (host ++ [ColorVertexData data])))
          entity pass.
Proof.
  intros Hrun.
  destruct (fill_vertices (color_vertex_at g) (vertices_ g)
              (size (vertices_ g))) as [e|data] eqn:Hfill.
  - rewrite (GetPositionColorBuffer_faulted g host entity pass e Hfill) in Hrun.
    discriminate Hrun.
  - rewrite (GetPositionColorBuffer_filled g host entity pass data Hfill) in Hrun.
    apply inr_injective in Hrun. cbv zeta in Hrun.
    injection Hrun as <- <-. exists data. auto.
Qed.

Lemma GetPositionUVColorBuffer_inv (texture_coverage : Rect.t)
    (effect_transform : Matrix) (host' : HostBuffer) (r : GeometryResult) :
  GetPositionUVColorBuffer g texture_coverage effect_transform host entity pass
  = inr (host', r) ->
  exists data,
    fill_vertices
      (blend_vertex_at g
         (Matrix_mul (GetNormalizingTransform texture_coverage) effect_transform)
         (HasTextureCoordinates g))
      (vertices_ g) (size (vertices_ g)) = inr data /\
    host' = fst (emplace_indices g (host ++ [BlendVertexData data])) /\
    r = make_result g
          {| buffer := Some (length host);
             range_length := size (vertices_ g) * sizeof_BlendVertex |}
          (snd (emplace_indices g (host ++ [BlendVertexData data])))
          entity pass.
Proof.
  intros Hrun.
  destruct (fill_vertices
              (blend_vertex_at g
                 (Matrix_mul (GetNormalizingTransform texture_coverage)
                    effect_transform)
                 (HasTextureCoordinates g))
              (vertices_ g) (size (vertices_ g))) as [e|data] eqn:Hfill.
  - rewrite (GetPositionUVColorBuffer_faulted g host entity pass
               texture_coverage effect_transform e Hfill) in Hrun.
    discriminate Hrun.
  - rewrite (GetPositionUVColorBuffer_filled g host entity pass
               texture_coverage effect_transform data Hfill) in Hrun.
    apply inr_injective in Hrun. cbv zeta in Hrun.
    injection Hrun as <- <-. exists data. auto.
Qed.

Lemma attributes_fit_lengths :
  attributes_fit g ->
  size (vertices_ g) <= size (colors_ g) /\
  (HasTextureCoordinates g = true ->
   size (vertices_ g) <= size (texture_coordinates_ g)).
Proof.
  intros [Hcolors Htex]. split; [lia|].
  intros Hhas. apply HasTextureCoordinates_true in Hhas.
  destruct Htex as [Hnil|Hlen]; [contradiction | lia].
Qed.

(** The colour builders return a result on attributes as long as the
    vertices, for fewer than [2^32] vertices. *)
Lemma color_builders_defined :
  attributes_fit g ->
  size (vertices_ g) < 2 ^ 32 ->
  (exists hr, GetPositionColorBuffer g host entity pass = inr hr) /\
  (forall texture_coverage effect_transform,
     exists hr,
       GetPositionUVColorBuffer g texture_coverage effect_transform host
         entity pass = inr hr).
Proof.
  intros Hfit Hsmall. destruct (attributes_fit_lengths Hfit) as [Hcolors Htex].
  split.
  - eexists. apply GetPositionColorBuffer_filled.
    apply fill_color_run; assumption.
  - intros texture_coverage effect_transform.
    eexists. apply GetPositionUVColorBuffer_filled.
    apply fill_blend_run; assumption.
Qed.

(** C4.  Whatever result one of the three builders returns: with indices
    stored, its vertex count is the number of indices, its index type is
    [k16bit] and its index view refers to a new allocation holding the
    indices; with no index stored, its vertex count is the number of
    vertices, its index type is [kNone] and its index view is the empty
    view, no index allocation being made.  The position builder returns on
    every geometry, the two colour builders on every geometry whose
    attributes are as long as its vertices. *)
Theorem builders_size_invariant :
  size_invariant g host (fst (GetPositionBuffer g host entity pass))
    (snd (GetPositionBuffer g host entity pass)) /\
  (forall host' r,
     GetPositionColorBuffer g host entity pass = inr (host', r) ->
     size_invariant g host host' r) /\
  (forall texture_coverage effect_transform host' r,
     GetPositionUVColorBuffer g texture_coverage effect_transform host
       entity pass = inr (host', r) ->
     size_invariant g host host' r) /\
  (attributes_fit g ->
   size (vertices_ g) < 2 ^ 32 ->
   (exists hr, GetPositionColorBuffer g host entity pass = inr hr) /\
   (forall texture_coverage effect_transform,
      exists hr,
        GetPositionUVColorBuffer g texture_coverage effect_transform host
          entity pass = inr hr)).
Proof.
  split; [|split; [|split]].
  - rewrite GetPositionBuffer_eq. cbv zeta. cbn [fst snd].
    apply emplace_indices_invariant.
  - intros host' r Hrun.
    destruct (GetPositionColorBuffer_inv host' r Hrun) as (data & _ & -> & ->).
    apply emplace_indices_invariant.
  - intros texture_coverage effect_transform host' r Hrun.
    destruct (GetPositionUVColorBuffer_inv _ _ host' r Hrun)
      as (data & _ & -> & ->).
    apply emplace_indices_invariant.
  - apply color_builders_defined.
Qed.

(** C9.  The body of the texture builder's loop reads [colors_[i]]
    whether or not texture coordinates are present: with fewer colours
    than vertices neither colour builder returns a result, and the fault is
    the read past the end of the colours.  With as many colours as
    vertices, and texture coordinates absent or as many as the vertices,
    no read of either builder is out of range, and the builders return for
    fewer than [2^32] vertices. *)
Theorem uv_builder_needs_colors (texture_coverage : Rect.t)
    (effect_transform : Matrix) :
  (forall (m : Matrix) (has_texture_coordinates : bool) (i : Z),
     0 <= i < size (vertices_ g) ->
     size (colors_ g) <= i ->
     blend_vertex_at g m has_texture_coordinates i = inl OutOfRange /\
     color_vertex_at g i = inl OutOfRange) /\
  (size (colors_ g) < size (vertices_ g) ->
   (forall hr,
      GetPositionUVColorBuffer g texture_coverage effect_transform host
        entity pass <> inr hr) /\
   (forall hr, GetPositionColorBuffer g host entity pass <> inr hr) /\
   (size (colors_ g) < 2 ^ 32 ->
    GetPositionUVColorBuffer g texture_coverage effect_transform host
      entity pass = inl OutOfRange /\
    GetPositionColorBuffer g host entity pass = inl OutOfRange)) /\
  (attributes_fit g ->
   GetPositionUVColorBuffer g texture_coverage effect_transform host
     entity pass <> inl OutOfRange /\
   GetPositionColorBuffer g host entity pass <> inl OutOfRange /\
   (size (vertices_ g) < 2 ^ 32 ->
    (exists hr,
       GetPositionUVColorBuffer g texture_coverage effect_transform host
         entity pass = inr hr) /\
    (exists hr, GetPositionColorBuffer g host entity pass = inr hr))).
Proof.
  split; [|split].
  - intros m has_texture_coordinates i Hi Hpast. split.
    + apply blend_vertex_at_past_colors; assumption.
    + apply color_vertex_at_past_colors; assumption.
  - intros Hshort. split; [|split].
    + intros [host' r] Hrun.
      destruct (GetPositionUVColorBuffer_inv _ _ host' r Hrun)
        as (data & Hfill & _).
      apply fill_blend_inv in Hfill. lia.
    + intros [host' r] Hrun.
      destruct (GetPositionColorBuffer_inv host' r Hrun) as (data & Hfill & _).
      apply fill_color_inv in Hfill. lia.
    + intros Hfit. split.
      * apply GetPositionUVColorBuffer_faulted.
        apply fill_blend_short_colors; assumption.
      * apply GetPositionColorBuffer_faulted.
        apply fill_color_short; assumption.
  - intros Hfit. split; [|split].
    + intros Hrun.
      destruct (fill_vertices
                  (blend_vertex_at g
                     (Matrix_mul (GetNormalizingTransform texture_coverage)
                        effect_transform)
                     (HasTextureCoordinates g))
                  (vertices_ g) (size (vertices_ g))) as [e|data] eqn:Hfill.
      * rewrite (GetPositionUVColorBuffer_faulted g host entity pass
                   texture_coverage effect_transform e Hfill) in Hrun.
        injection Hrun as ->.
        exact (fill_blend_in_range g _ Hfit Hfill).
      * rewrite (GetPositionUVColorBuffer_filled g host entity pass
                   texture_coverage effect_transform data Hfill) in Hrun.
        discriminate Hrun.
    + intros Hrun.
      destruct (fill_vertices (color_vertex_at g) (vertices_ g)
                  (size (vertices_ g))) as [e|data] eqn:Hfill.
      * rewrite (GetPositionColorBuffer_faulted g host entity pass e Hfill)
          in Hrun.
        injection Hrun as ->.
        destruct Hfit as [Hcolors _].
        exact (fill_color_in_range g Hcolors Hfill).
      * rewrite (GetPositionColorBuffer_filled g host entity pass data Hfill)
          in Hrun.
        discriminate Hrun.
    + intros Hsmall.
      destruct (color_builders_defined Hfit Hsmall) as [Hcolor Hblend].
      split; [apply Hblend | exact Hcolor].
Qed.

(** C5 (amended).  In every result of [GetPositionUVColorBuffer], the
    record of vertex [i] holds as texture coordinate the point obtained by
    applying [GetNormalizingTransform(texture_coverage) * effect_transform]
    to [texture_coordinates_[i]] when texture coordinates are present and
    to [vertices_[i]] otherwise, each component then passed through
    [std::clamp] with the bounds [0] and [1 - kEhCloseEnough].  A component
    that is a number ends in [[0, 1 - kEhCloseEnough]] and is below [1.0];
    a component that is a NaN stays a NaN.  The bounds are assumed ordered,
    [0 <= 1 - kEhCloseEnough < 1] in binary32. *)
Theorem uv_builder_texture_coords (texture_coverage : Rect.t)
    (effect_transform : Matrix) (host' : HostBuffer) (r : GeometryResult) :
  SFleb Scalar_0 uv_upper = true ->
  SFltb uv_upper Scalar_1 = true ->
  GetPositionUVColorBuffer g texture_coverage effect_transform host
    entity pass = inr (host', r) ->
  exists data : vector BlendVertex.t,
    view_contents host' (vertex_buffer (result_vertex_buffer r))
    = Some (BlendVertexData data) /\
    length data = length (vertices_ g) /\
    forall i : nat,
      (i < length (vertices_ g))%nat ->
      exists (record : BlendVertex.t) (source : Point.t),
        nth_error data i = Some record /\
        (if HasTextureCoordinates g
         then nth_error (texture_coordinates_ g) i = Some source
         else nth_error (vertices_ g) i = Some source) /\
        let uv :=
          Matrix_apply
            (Matrix_mul (GetNormalizingTransform texture_coverage)
               effect_transform)
            source in
        let stored := BlendVertex.texture_coords record in
        stored
        = Point.Make (std_clamp (Point.x uv) Scalar_0 uv_upper)
                     (std_clamp (Point.y uv) Scalar_0 uv_upper) /\
        (is_nan (Point.x uv) = false -> in_uv_range (Point.x stored)) /\
        (is_nan (Point.y uv) = false -> in_uv_range (Point.y stored)) /\
        (is_nan (Point.x uv) = true -> is_nan (Point.x stored) = true) /\
        (is_nan (Point.y uv) = true -> is_nan (Point.y stored) = true).
Proof.
  intros Hlo Hhi Hrun.
  destruct (GetPositionUVColorBuffer_inv _ _ host' r Hrun)
    as (data & Hfill & -> & ->).
  apply fill_blend_inv in Hfill.
  destruct Hfill as (Hsmall & Hcolors & Htex & ->).
  exists (map (blend_record g
                 (Matrix_mul (GetNormalizingTransform texture_coverage)
                    effect_transform))
              (seq 0 (length (vertices_ g)))).
  split; [|split].
  - unfold make_result. cbn [result_vertex_buffer vertex_buffer].
    destruct (emplace_indices_extends
                (host ++ [BlendVertexData
                            (map (blend_record g
                                    (Matrix_mul
                                       (GetNormalizingTransform texture_coverage)
                                       effect_transform))
                                 (seq 0 (length (vertices_ g))))]))
      as [rest ->].
    apply view_contents_last.
  - rewrite length_map, length_seq. reflexivity.
  - intros i Hi.
    exists (blend_record g
              (Matrix_mul (GetNormalizingTransform texture_coverage)
                 effect_transform) i),
           (uv_source g i).
    split; [|split].
    + rewrite nth_error_map, nth_error_seq.
      replace (i <? length (vertices_ g))%nat with true
        by (symmetry; apply Nat.ltb_lt; exact Hi).
      reflexivity.
    + unfold uv_source. destruct (HasTextureCoordinates g) eqn:Hhas.
      * apply nth_error_nth'. specialize (Htex eq_refl).
        unfold size in Htex. lia.
      * apply nth_error_nth'. exact Hi.
    + cbv zeta. unfold blend_record. cbn [BlendVertex.texture_coords].
      unfold clamp_uv. fold uv_upper. cbn [Point.x Point.y].
      split; [reflexivity|].
      split; [|split; [|split]].
      * intros Hnum. apply std_clamp_bounds; assumption.
      * intros Hnum. apply std_clamp_bounds; assumption.
      * intros Hnan.
        destruct (Point.x _); try discriminate Hnan.
        rewrite std_clamp_nan. reflexivity.
      * intros Hnan.
        destruct (Point.y _); try discriminate Hnan.
        rewrite std_clamp_nan. reflexivity.
Qed.

End BuilderClaims.

(** ** The builders on concrete data *)

Lemma GetPrimitiveType_closed_witness :
  GetPrimitiveType sample_fan = PrimitiveType.kTriangle.
Proof.
  destruct (GetPrimitiveType_closed sample_fan) as (_ & _ & Hnew).
  apply (Hnew (vertices_ sample_triangle) [] [] (colors_ sample_triangle)
           unit_rect).
  reflexivity.
Defined.

Lemma builders_size_invariant_witness :
  exists hr, GetPositionColorBuffer sample_triangle [] sample_entity sample_pass = inr hr.
Proof.
  destruct (@builders_size_invariant reference_collaborators sample_triangle
              [] sample_entity sample_pass) as (_ & _ & _ & Hdefined).
  destruct Hdefined as [Hcolor _].
  - split; [reflexivity | left; reflexivity].
  - vm_compute. reflexivity.
  - exact Hcolor.
Defined.

Lemma uv_builder_needs_colors_witness :
  GetPositionUVColorBuffer uncolored_vertex unit_rect identity_transform
    [] sample_entity sample_pass = inl OutOfRange.
Proof.
  destruct (@uv_builder_needs_colors reference_collaborators uncolored_vertex
              [] sample_entity sample_pass unit_rect identity_transform) as (_ & Hshort & _).
  destruct Hshort as (_ & _ & Hfault).
  - vm_compute. reflexivity.
  - destruct Hfault as [Huv _].
    + vm_compute. reflexivity.
    + exact Huv.
Defined.

Lemma uv_builder_texture_coords_witness :
  exists (host' : HostBuffer) (r : GeometryResult),
    GetPositionUVColorBuffer sample_triangle unit_rect identity_transform
      [] sample_entity sample_pass = inr (host', r) /\
    exists data : vector BlendVertex.t,
      view_contents host' (vertex_buffer (result_vertex_buffer r))
      = Some (BlendVertexData data) /\
      length data = 3%nat.
Proof.
  eexists. eexists. split; [reflexivity|].
  destruct (@uv_builder_texture_coords reference_collaborators
              sample_triangle [] sample_entity sample_pass unit_rect
              identity_transform _ _ eq_refl eq_refl eq_refl)
    as (data & Hview & Hlen & _).
  exists data. split; [exact Hview | exact Hlen].
Defined.

(** C5, as stated, fails: a NaN component of the transformed point is
    below neither clamp bound, [std::clamp] returns it unchanged, and the
    stored component is not below [1.0]. *)
Lemma uv_builder_nan_passes :
  exists (host' : HostBuffer) (r : GeometryResult) (record : BlendVertex.t),
    GetPositionUVColorBuffer nan_vertex unit_rect identity_transform
      [] sample_entity sample_pass = inr (host', r) /\
    view_contents host' (vertex_buffer (result_vertex_buffer r))
    = Some (BlendVertexData [record]) /\
    SFltb (Point.x (BlendVertex.texture_coords record)) Scalar_1 = false.
Proof.
  eexists. eexists. eexists.
  split; [reflexivity|].
  split; reflexivity.
Qed.

(** * Further properties *)

(** ** The fan unroller *)

Lemma walked_size_cases {P : Type} (vertices : vector P)
    (indices : vector uint16_t) :
  (indices <> [] /\ walked_size vertices indices = size indices) \/
  (indices = [] /\ walked_size vertices indices = size vertices).
Proof.
  unfold walked_size. destruct indices as [|i0 rest].
  - right. split; reflexivity.
  - left. split; [discriminate|].
    replace (size (i0 :: rest) >? 0) with true
      by (symmetry; apply Z.gtb_lt; unfold size; cbn [length]; lia).
    reflexivity.
Qed.

Lemma fromFanIndices_result_fits {P : Type} (vertices : vector P)
    (indices r : vector uint16_t) :
  fromFanIndices vertices indices = inr r ->
  walked_size vertices indices <= 2 ^ 32.
Proof.
  intros Hrun.
  destruct (Z_le_gt_dec (walked_size vertices indices) (2 ^ 32)) as [Hfit|Hbig];
    [exact Hfit|].
  exfalso.
  assert (Hdiv : fromFanIndices vertices indices = inl Diverges).
  { apply fan_diverges.
    destruct (walked_size_cases vertices indices) as [[Hne Hw]|[Hnil Hw]];
      [left | right]; split; try assumption; lia. }
  rewrite Hdiv in Hrun. discriminate Hrun.
Qed.

(** The result of the unroller in closed form, whatever the case. *)
Lemma fromFanIndices_result {P : Type} (vertices : vector P)
    (indices r : vector uint16_t) :
  fromFanIndices vertices indices = inr r ->
  (indices <> [] /\
   r = if size indices <? 3 then []
       else explicit_triples indices (nth 0 indices 0) 1 (length indices - 2)) \/
  (indices = [] /\
   r = if size vertices <? 3 then []
       else implicit_triples16 1 (length vertices - 2)).
Proof.
  intros Hrun. pose proof (fromFanIndices_result_fits _ _ _ Hrun) as Hfit.
  destruct (walked_size_cases vertices indices) as [[Hne Hw]|[Hnil Hw]];
    rewrite Hw in Hfit.
  - left. split; [exact Hne|].
    rewrite (fromFanIndices_explicit vertices indices Hne Hfit) in Hrun.
    apply inr_injective in Hrun. symmetry. exact Hrun.
  - right. split; [exact Hnil|].
    rewrite (fromFanIndices_implicit vertices indices Hnil Hfit) in Hrun.
    apply inr_injective in Hrun. symmetry. exact Hrun.
Qed.

(** X1.  [fromFanIndices] returns a result exactly when the vector it
    walks (the indices if there are any, the vertices otherwise) has at most
    [2^32] elements; beyond that the 32-bit counter wraps and the loop does
    not exit. *)
Theorem fromFanIndices_returns_iff {P : Type} (vertices : vector P)
    (indices : vector uint16_t) :
  (exists r, fromFanIndices vertices indices = inr r) <->
  walked_size vertices indices <= 2 ^ 32.
Proof.
  split.
  - intros [r Hrun]. exact (fromFanIndices_result_fits _ _ _ Hrun).
  - intros Hfit.
    destruct (walked_size_cases vertices indices) as [[Hne Hw]|[Hnil Hw]];
      rewrite Hw in Hfit; eexists.
    + apply (fromFanIndices_explicit vertices indices Hne Hfit).
    + apply (fromFanIndices_implicit vertices indices Hnil Hfit).
Qed.

(** X2.  Whatever [fromFanIndices] returns is a triangle list with one
    triangle for each element of the walked vector after the second: its
    length is [3 * max(0, n - 2)], a multiple of three. *)
Theorem fromFanIndices_triangle_count {P : Type} (vertices : vector P)
    (indices r : vector uint16_t) :
  fromFanIndices vertices indices = inr r ->
  size r = 3 * Z.max 0 (walked_size vertices indices - 2).
Proof.
  intros Hrun.
  destruct (walked_size_cases vertices indices) as [[Hne Hw]|[Hnil Hw]];
    rewrite Hw;
    destruct (fromFanIndices_result _ _ _ Hrun) as [[Hne' ->]|[Hnil' ->]];
    try contradiction; try (subst indices; contradiction).
  - destruct (size indices <? 3) eqn:Hshort.
    + apply Z.ltb_lt in Hshort. unfold size at 1. cbn [length]. lia.
    + apply Z.ltb_ge in Hshort. unfold size in *.
      rewrite explicit_triples_length. lia.
  - destruct (size vertices <? 3) eqn:Hshort.
    + apply Z.ltb_lt in Hshort. unfold size at 1. cbn [length]. lia.
    + apply Z.ltb_ge in Hshort. unfold size in *.
      rewrite implicit_triples16_length. lia.
Qed.

Lemma fromFanIndices_triangle_count_witness :
  exists r, fromFanIndices (points 5) [] = inr r /\ size r = 9.
Proof.
  eexists. split; [reflexivity|].
  apply (fromFanIndices_triangle_count (points 5) []). reflexivity.
Defined.

Lemma explicit_triples_In (indices : list uint16_t) (c x : uint16_t)
    (count : nat) :
  forall first : nat,
    In x (explicit_triples indices c first count) ->
    x = c \/
    exists i : nat, (first <= i <= first + count)%nat /\ x = nth i indices 0.
Proof.
  unfold explicit_triples.
  induction count as [|count IH]; intros first Hin; cbn [seq flat_map] in Hin.
  - contradiction.
  - apply in_app_or in Hin. destruct Hin as [Hhead|Htail].
    + cbn [In] in Hhead. destruct Hhead as [<-|[<-|[<-|[]]]].
      * left. reflexivity.
      * right. exists first. split; [lia | reflexivity].
      * right. exists (S first). split; [lia | reflexivity].
    + destruct (IH (S first) Htail) as [->|(i & Hi & ->)].
      * left. reflexivity.
      * right. exists i. split; [lia | reflexivity].
Qed.

(** X3.  With explicit indices the unroller only rearranges: every index
    of its result is one of the given indices. *)
Theorem fan_explicit_indices_preserved {P : Type} (vertices : vector P)
    (indices r : vector uint16_t) :
  indices <> [] ->
  fromFanIndices vertices indices = inr r ->
  forall x : uint16_t, In x r -> In x indices.
Proof.
  intros Hne Hrun x Hin.
  destruct (fromFanIndices_result _ _ _ Hrun) as [[_ ->]|[Hnil _]];
    [|contradiction].
  destruct (size indices <? 3) eqn:Hshort; [contradiction|].
  apply Z.ltb_ge in Hshort. unfold size in Hshort.
  apply explicit_triples_In in Hin.
  destruct Hin as [->|(i & Hi & ->)]; apply nth_In; lia.
Qed.

Lemma fan_explicit_indices_preserved_witness : In 3 [5; 1; 2; 3].
Proof.
  apply (fan_explicit_indices_preserved [origin] [5; 1; 2; 3]
           [5; 1; 2; 5; 2; 3]).
  - discriminate.
  - reflexivity.
  - cbn [In]. auto 10.
Defined.

Lemma implicit_triples16_In (x : uint16_t) (count : nat) :
  forall first : nat,
    In x (implicit_triples16 first count) ->
    x = 0 \/
    exists i : nat,
      (first <= i <= first + count)%nat /\ x = to_uint16 (Z.of_nat i).
Proof.
  unfold implicit_triples16.
  induction count as [|count IH]; intros first Hin; cbn [seq flat_map] in Hin.
  - contradiction.
  - apply in_app_or in Hin. destruct Hin as [Hhead|Htail].
    + cbn [In] in Hhead. destruct Hhead as [<-|[<-|[<-|[]]]].
      * left. reflexivity.
      * right. exists first. split; [lia | reflexivity].
      * right. exists (S first). split; [lia|]. f_equal. lia.
    + destruct (IH (S first) Htail) as [->|(i & Hi & ->)].
      * left. reflexivity.
      * right. exists i. split; [lia | reflexivity].
Qed.

(** X4.  Without indices, every index the unroller generates is a 16-bit
    value, and for at most [65536] vertices it is the index of a vertex. *)
Theorem fan_implicit_indices_in_range {P : Type} (vertices : vector P)
    (r : vector uint16_t) :
  fromFanIndices vertices [] = inr r ->
  indices_in_range (2 ^ 16) r /\
  (size vertices <= 65536 -> indices_in_range (size vertices) r).
Proof.
  intros Hrun.
  destruct (fromFanIndices_result _ _ _ Hrun) as [[Hne _]|[_ ->]];
    [contradiction Hne; reflexivity|].
  destruct (size vertices <? 3) eqn:Hshort.
  - split; [|intros _]; intros x Hin; contradiction.
  - apply Z.ltb_ge in Hshort. unfold size in *. split.
    + intros x Hin. apply implicit_triples16_In in Hin.
      destruct Hin as [->|(i & Hi & ->)]; [lia | apply to_uint16_range].
    + intros Hsmall x Hin. apply implicit_triples16_In in Hin.
      destruct Hin as [->|(i & Hi & ->)]; [lia|].
      rewrite to_uint16_small by lia. lia.
Qed.

Lemma fan_implicit_indices_in_range_witness : 0 <= 4 < size (points 5).
Proof.
  destruct (fan_implicit_indices_in_range (points 5)
              [0; 1; 2; 0; 2; 3; 0; 3; 4] eq_refl) as [_ Hvalid].
  apply Hvalid.
  - vm_compute. discriminate.
  - cbn [In]. auto 10.
Defined.

Lemma nth_error_skip_triple {A : Type} (a b c : A) (rest : list A) (k : nat) :
  nth_error ([a; b; c] ++ rest) (3 + k) = nth_error rest k.
Proof. reflexivity. Qed.

Lemma explicit_triples_triangle (indices : list uint16_t) (c : uint16_t)
    (count : nat) :
  forall first j : nat,
    (j < count)%nat ->
    triangle_at (explicit_triples indices c first count) j
    = Some (c, nth (first + j) indices 0, nth (S (first + j)) indices 0).
Proof.
  induction count as [|count IH]; intros first j Hj; [lia|].
  change (explicit_triples indices c first (S count))
    with ([c; nth first indices 0; nth (S first) indices 0]
            ++ explicit_triples indices c (S first) count).
  destruct j as [|j].
  - rewrite Nat.add_0_r. reflexivity.
  - unfold triangle_at.
    replace (3 * S j)%nat with (3 + 3 * j)%nat by lia.
    replace (3 + 3 * j + 1)%nat with (3 + (3 * j + 1))%nat by lia.
    replace (3 + 3 * j + 2)%nat with (3 + (3 * j + 2))%nat by lia.
    rewrite !nth_error_skip_triple.
    specialize (IH (S first) j ltac:(lia)). unfold triangle_at in IH.
    rewrite IH. replace (first + S j)%nat with (S first + j)%nat by lia.
    reflexivity.
Qed.

Lemma triangle_at_past_end (r : vector uint16_t) (j : nat) :
  (length r <= 3 * j)%nat -> triangle_at r j = None.
Proof.
  intros Hpast. unfold triangle_at.
  replace (nth_error r (3 * j)) with (@None uint16_t)
    by (symmetry; apply nth_error_None; exact Hpast).
  reflexivity.
Qed.

(** X5.  Triangle [j] of an unrolled explicit fan is
    [(indices[0], indices[j+1], indices[j+2])], for every [j] below
    [indices.length - 2], and there is no further triangle: all triangles
    share the first index, and each one starts where the one before it
    ended. *)
Theorem fan_explicit_triangle {P : Type} (vertices : vector P)
    (indices r : vector uint16_t) :
  indices <> [] ->
  fromFanIndices vertices indices = inr r ->
  (forall j : nat,
     (j + 2 < length indices)%nat ->
     triangle_at r j
     = Some (nth 0 indices 0, nth (j + 1) indices 0, nth (j + 2) indices 0)) /\
  (forall j : nat,
     (length indices <= j + 2)%nat -> triangle_at r j = None).
Proof.
  intros Hne Hrun.
  destruct (fromFanIndices_result _ _ _ Hrun) as [[_ ->]|[Hnil _]];
    [|contradiction].
  destruct (size indices <? 3) eqn:Hshort.
  - apply Z.ltb_lt in Hshort. unfold size in Hshort. split.
    + intros j Hj. lia.
    + intros j _. apply triangle_at_past_end. cbn [length]. lia.
  - apply Z.ltb_ge in Hshort. unfold size in Hshort. split.
    + intros j Hj. rewrite explicit_triples_triangle by lia.
      replace (1 + j)%nat with (j + 1)%nat by lia.
      replace (S (j + 1)) with (j + 2)%nat by lia.
      reflexivity.
    + intros j Hj. apply triangle_at_past_end.
      rewrite explicit_triples_length. lia.
Qed.

Lemma fan_explicit_triangle_witness :
  triangle_at [5; 1; 2; 5; 2; 3] 1 = Some (5, 2, 3).
Proof.
  destruct (fan_explicit_triangle [origin] [5; 1; 2; 3] [5; 1; 2; 5; 2; 3])
    as [Hinside _].
  - discriminate.
  - reflexivity.
  - apply (Hinside 1%nat). cbn [length]. lia.
Defined.

(** ** Construction *)

Lemma VertexMode_eq_dec (a b : VertexMode.t) : {a = b} + {a <> b}.
Proof. decide equality. Qed.

Lemma VerticesGeometry_new_fan (vertices : vector Point.t)
    (indices : vector uint16_t) (texture_coordinates : vector Point.t)
    (colors : vector Color.t) (bounds : Rect.t) (g : VerticesGeometry) :
  VerticesGeometry_new vertices indices texture_coordinates colors bounds
    VertexMode.kTriangleFan = inr g ->
  fromFanIndices vertices indices = inr (indices_ g) /\
  vertices_ g = vertices /\
  vertex_mode_ g = VertexMode.kTriangleFan.
Proof.
  unfold VerticesGeometry_new, NormalizeIndices.
  cbn [vertex_mode_ vertices_ indices_].
  destruct (fromFanIndices vertices indices) as [e|unrolled];
    cbn [bind ret Monad_either]; intros Hnew; [discriminate Hnew|].
  apply inr_injective in Hnew. subst g. cbn. auto.
Qed.

Lemma VerticesGeometry_new_other (vertices : vector Point.t)
    (indices : vector uint16_t) (texture_coordinates : vector Point.t)
    (colors : vector Color.t) (bounds : Rect.t) (vertex_mode : VertexMode.t)
    (g : VerticesGeometry) :
  vertex_mode <> VertexMode.kTriangleFan ->
  VerticesGeometry_new vertices indices texture_coordinates colors bounds
    vertex_mode = inr g ->
  indices_ g = indices /\ vertices_ g = vertices.
Proof.
  unfold VerticesGeometry_new, NormalizeIndices.
  cbn [vertex_mode_ vertices_ indices_].
  destruct vertex_mode; intros Hmode Hnew; try (contradiction Hmode; reflexivity);
    apply inr_injective in Hnew; subst g; cbn; auto.
Qed.

(** X6.  Construction keeps indices valid: if every given index refers to
    one of the vertices, and there are at most [65536] vertices, then every
    stored index of the constructed geometry refers to one of its
    vertices, in every topology mode (for a fan without indices the stored
    indices are generated, and are valid as well). *)
Theorem construction_keeps_indices_in_range (vertices : vector Point.t)
    (indices : vector uint16_t) (texture_coordinates : vector Point.t)
    (colors : vector Color.t) (bounds : Rect.t) (vertex_mode : VertexMode.t)
    (g : VerticesGeometry) :
  indices_in_range (size vertices) indices ->
  size vertices <= 65536 ->
  VerticesGeometry_new vertices indices texture_coordinates colors bounds
    vertex_mode = inr g ->
  indices_in_range (size (vertices_ g)) (indices_ g).
Proof.
  intros Hvalid Hsmall Hnew.
  destruct (VertexMode_eq_dec vertex_mode VertexMode.kTriangleFan)
    as [->|Hother].
  - destruct (VerticesGeometry_new_fan _ _ _ _ _ _ Hnew) as (Hrun & -> & _).
    intros x Hin.
    destruct (fromFanIndices_result _ _ _ Hrun) as [[Hne Hr]|[Hnil Hr]];
      rewrite Hr in Hin.
    + destruct (size indices <? 3) eqn:Hshort; [contradiction|].
      apply Z.ltb_ge in Hshort. unfold size in Hshort.
      apply Hvalid. apply explicit_triples_In in Hin.
      destruct Hin as [->|(i & Hi & ->)]; apply nth_In; lia.
    + destruct (size vertices <? 3) eqn:Hshort; [contradiction|].
      apply Z.ltb_ge in Hshort. unfold size in *.
      apply implicit_triples16_In in Hin.
      destruct Hin as [->|(i & Hi & ->)]; [lia|].
      rewrite to_uint16_small by lia. lia.
  - destruct (VerticesGeometry_new_other _ _ _ _ _ _ _ Hother Hnew)
      as [-> ->].
    exact Hvalid.
Qed.

Lemma construction_keeps_indices_in_range_witness :
  0 <= 2 < size (vertices_ sample_fan).
Proof.
  apply (construction_keeps_indices_in_range
           (vertices_ sample_triangle) [] [] (colors_ sample_triangle)
           unit_rect VertexMode.kTriangleFan sample_fan).
  - intros x Hin. contradiction.
  - vm_compute. discriminate.
  - reflexivity.
  - cbn [sample_fan indices_ In]. auto.
Defined.

(** ** Construction followed by a builder *)

Section DrawCounts.
Context `{Collaborators}.

Variable host : HostBuffer.
Variable entity : Entity.
Variable pass : RenderPass.

Lemma builder_result_invariant (g : VerticesGeometry) (host' : HostBuffer)
    (r : GeometryResult) :
  builder_result g host entity pass host' r ->
  size_invariant g host host' r /\
  type r = GetPrimitiveType g /\
  transform r = GetShaderTransform entity pass /\
  exists added : HostBuffer, host' = host ++ added.
Proof.
  assert (Hshape : forall (a : allocation) (view : BufferView),
             size_invariant g host (fst (emplace_indices g (host ++ [a])))
               (make_result g view (snd (emplace_indices g (host ++ [a])))
                  entity pass) /\
             type (make_result g view (snd (emplace_indices g (host ++ [a])))
                     entity pass) = GetPrimitiveType g /\
             transform (make_result g view
                          (snd (emplace_indices g (host ++ [a])))
                          entity pass) = GetShaderTransform entity pass /\
             exists added : HostBuffer,
               fst (emplace_indices g (host ++ [a])) = host ++ added).
  { intros a view. split; [apply emplace_indices_invariant|].
    split; [reflexivity|]. split; [reflexivity|].
    destruct (emplace_indices_extends g (host ++ [a])) as [rest ->].
    exists ([a] ++ rest). rewrite app_assoc. reflexivity. }
  intros [Hpos|[Hcolor|(texture_coverage & effect_transform & Hblend)]].
  - rewrite GetPositionBuffer_eq in Hpos. cbv zeta in Hpos.
    injection Hpos as <- <-. apply Hshape.
  - destruct (GetPositionColorBuffer_inv g host entity pass host' r Hcolor)
      as (data & _ & -> & ->).
    apply Hshape.
  - destruct (GetPositionUVColorBuffer_inv g host entity pass _ _ host' r
                Hblend) as (data & _ & -> & ->).
    apply Hshape.
Qed.

Variable vertices : vector Point.t.
Variable indices : vector uint16_t.
Variable texture_coordinates : vector Point.t.
Variable colors : vector Color.t.
Variable bounds : Rect.t.
Variable g : VerticesGeometry.

Hypothesis constructed :
  VerticesGeometry_new vertices indices texture_coordinates colors bounds
    VertexMode.kTriangleFan = inr g.

Lemma constructed_fan_indices :
  size (indices_ g) = 3 * Z.max 0 (walked_size vertices indices - 2).
Proof.
  destruct (VerticesGeometry_new_fan _ _ _ _ _ _ constructed) as (Hrun & _ & _).
  destruct (walked_size_cases vertices indices) as [[Hne Hw]|[Hnil Hw]];
    rewrite Hw;
    destruct (fromFanIndices_result _ _ _ Hrun) as [[Hne' ->]|[Hnil' ->]];
    try contradiction; try (subst indices; contradiction).
  - destruct (size indices <? 3) eqn:Hshort.
    + apply Z.ltb_lt in Hshort. unfold size at 1. cbn [length]. lia.
    + apply Z.ltb_ge in Hshort. unfold size in *.
      rewrite explicit_triples_length. lia.
  - destruct (size vertices <? 3) eqn:Hshort.
    + apply Z.ltb_lt in Hshort. unfold size at 1. cbn [length]. lia.
    + apply Z.ltb_ge in Hshort. unfold size in *.
      rewrite implicit_triples16_length. lia.
Qed.

Lemma size_zero_nil {A : Type} (v : vector A) : size v = 0 -> v = [].
Proof. unfold size. destruct v; [reflexivity | cbn [length]; lia]. Qed.

(** X7.  A fan of [n >= 3] walked elements, once constructed, is drawn
    by every builder as an indexed triangle list of [3 * (n - 2)] indices:
    the result's vertex count is [3 * (n - 2)], its index type [k16bit],
    its primitive type [kTriangle]. *)
Theorem constructed_fan_draw (host' : HostBuffer) (r : GeometryResult) :
  3 <= walked_size vertices indices ->
  builder_result g host entity pass host' r ->
  vertex_count (result_vertex_buffer r)
  = 3 * (walked_size vertices indices - 2) /\
  index_type (result_vertex_buffer r) = IndexType.k16bit /\
  view_contents host' (index_buffer (result_vertex_buffer r))
  = Some (IndexData (indices_ g)) /\
  type r = PrimitiveType.kTriangle.
Proof.
  intros Hlong Hresult.
  destruct (builder_result_invariant g host' r Hresult)
    as ([Hindexed _] & Htype & _).
  pose proof constructed_fan_indices as Hsize.
  destruct (VerticesGeometry_new_fan _ _ _ _ _ _ constructed) as (_ & _ & Hmode).
  assert (Hne : indices_ g <> []).
  { intros Hnil. rewrite Hnil in Hsize. unfold size in Hsize.
    cbn [length] in Hsize. lia. }
  destruct (Hindexed Hne) as (Hcount & Hwidth & Hview & _).
  split; [rewrite Hcount, Hsize; lia|].
  split; [exact Hwidth|]. split; [exact Hview|].
  rewrite Htype. unfold GetPrimitiveType. rewrite Hmode. reflexivity.
Qed.

(** X8.  A degenerate fan, of fewer than three walked elements, stores no
    indices once constructed, and every builder then draws the geometry
    unindexed: the result's vertex count is the number of vertices (not
    zero), its index type [kNone], its index view empty.  This holds in
    particular for one or two explicit indices over any number of
    vertices. *)
Theorem degenerate_fan_draw (host' : HostBuffer) (r : GeometryResult) :
  walked_size vertices indices < 3 ->
  builder_result g host entity pass host' r ->
  indices_ g = [] /\
  vertex_count (result_vertex_buffer r) = size vertices /\
  index_type (result_vertex_buffer r) = IndexType.kNone /\
  index_buffer (result_vertex_buffer r) = empty_view /\
  type r = PrimitiveType.kTriangle.
Proof.
  intros Hshort Hresult.
  destruct (builder_result_invariant g host' r Hresult)
    as ([_ Hplain] & Htype & _).
  pose proof constructed_fan_indices as Hsize.
  destruct (VerticesGeometry_new_fan _ _ _ _ _ _ constructed)
    as (_ & Hvertices & Hmode).
  assert (Hnil : indices_ g = []) by (apply size_zero_nil; lia).
  destruct (Hplain Hnil) as (Hcount & Hwidth & Hview & _).
  split; [exact Hnil|].
  split; [rewrite Hcount, Hvertices; reflexivity|].
  split; [exact Hwidth|]. split; [exact Hview|].
  rewrite Htype. unfold GetPrimitiveType. rewrite Hmode. reflexivity.
Qed.

End DrawCounts.

(** ** The packed records *)

Section Payloads.
Context `{Collaborators}.

Variable g : VerticesGeometry.
Variable host : HostBuffer.
Variable entity : Entity.
Variable pass : RenderPass.

Lemma vertex_view_contents (a : allocation) (bytes : Z) :
  view_contents (fst (emplace_indices g (host ++ [a])))
    {| buffer := Some (length host); range_length := bytes |} = Some a.
Proof.
  destruct (emplace_indices_extends g (host ++ [a])) as [rest ->].
  apply view_contents_last.
Qed.

(** X9.  In every result of [GetPositionColorBuffer] the vertex view
    refers to one record per vertex, in order, the record of vertex [i]
    being [(vertices_[i], colors_[i])]; colours beyond the last vertex are
    not packed, and the indices play no part. *)
Theorem color_builder_records (host' : HostBuffer) (r : GeometryResult) :
  GetPositionColorBuffer g host entity pass = inr (host', r) ->
  exists data : vector ColorVertex.t,
    view_contents host' (vertex_buffer (result_vertex_buffer r))
    = Some (ColorVertexData data) /\
    range_length (vertex_buffer (result_vertex_buffer r))
    = size (vertices_ g) * sizeof_ColorVertex /\
    length data = length (vertices_ g) /\
    forall i : nat,
      (i < length (vertices_ g))%nat ->
      exists (position : Point.t) (color : Color.t),
        nth_error (vertices_ g) i = Some position /\
        nth_error (colors_ g) i = Some color /\
        nth_error data i
        = Some {| ColorVertex.position := position;
                  ColorVertex.color := color |}.
Proof.
  intros Hrun.
  destruct (GetPositionColorBuffer_inv g host entity pass host' r Hrun)
    as (data & Hfill & -> & ->).
  apply fill_color_inv in Hfill. destruct Hfill as (_ & Hcolors & ->).
  eexists. split; [|split; [|split]].
  - unfold make_result. cbn [result_vertex_buffer vertex_buffer].
    apply vertex_view_contents.
  - reflexivity.
  - rewrite length_map, length_seq. reflexivity.
  - intros i Hi. unfold size in Hcolors.
    exists (nth i (vertices_ g) origin), (nth i (colors_ g) white).
    split; [apply nth_error_nth'; exact Hi|].
    split; [apply nth_error_nth'; lia|].
    rewrite nth_error_map, nth_error_seq.
    replace (i <? length (vertices_ g))%nat with true
      by (symmetry; apply Nat.ltb_lt; exact Hi).
    reflexivity.
Qed.

(** X10.  In every result of [GetPositionUVColorBuffer] the record of
    vertex [i] carries the position [vertices_[i]] and the colour
    [colors_[i]] unchanged: the texture transform and the clamp touch the
    texture coordinate only. *)
Theorem blend_builder_positions_and_colors (texture_coverage : Rect.t)
    (effect_transform : Matrix) (host' : HostBuffer) (r : GeometryResult) :
  GetPositionUVColorBuffer g texture_coverage effect_transform host
    entity pass = inr (host', r) ->
  exists data : vector BlendVertex.t,
    view_contents host' (vertex_buffer (result_vertex_buffer r))
    = Some (BlendVertexData data) /\
    range_length (vertex_buffer (result_vertex_buffer r))
    = size (vertices_ g) * sizeof_BlendVertex /\
    forall i : nat,
      (i < length (vertices_ g))%nat ->
      exists (record : BlendVertex.t) (position : Point.t) (color : Color.t),
        nth_error data i = Some record /\
        nth_error (vertices_ g) i = Some position /\
        nth_error (colors_ g) i = Some color /\
        BlendVertex.vertices record = position /\
        BlendVertex.color record = color.
Proof.
  intros Hrun.
  destruct (GetPositionUVColorBuffer_inv g host entity pass _ _ host' r Hrun)
    as (data & Hfill & -> & ->).
  apply fill_blend_inv in Hfill. destruct Hfill as (_ & Hcolors & _ & ->).
  eexists. split; [|split].
  - unfold make_result. cbn [result_vertex_buffer vertex_buffer].
    apply vertex_view_contents.
  - reflexivity.
  - intros i Hi. unfold size in Hcolors.
    eexists. exists (nth i (vertices_ g) origin), (nth i (colors_ g) white).
    split; [|split; [|split; [|split]]].
    + rewrite nth_error_map, nth_error_seq.
      replace (i <? length (vertices_ g))%nat with true
        by (symmetry; apply Nat.ltb_lt; exact Hi).
      reflexivity.
    + apply nth_error_nth'. exact Hi.
    + apply nth_error_nth'. lia.
    + reflexivity.
    + reflexivity.
Qed.

(** ** When the colour builders return *)



(** X13.  A geometry that [GetVertexType] does not classify as [kColor]
    has no colours: if it has a vertex, both colour builders read
    [colors_[0]] past the end, also when texture coordinates are present
    (the [kUV] class). *)
Theorem uncolored_geometry_faults (texture_coverage : Rect.t)
    (effect_transform : Matrix) :
  GetVertexType g <> GeometryVertexType.kColor ->
  vertices_ g <> [] ->
  colors_ g = [] /\
  GetPositionColorBuffer g host entity pass = inl OutOfRange /\
  GetPositionUVColorBuffer g texture_coverage effect_transform host
    entity pass = inl OutOfRange.
Proof.
  intros Hclass Hvertices.
  assert (Hnil : colors_ g = []).
  { unfold GetVertexType, HasVertexColors in Hclass.
    destruct (size (colors_ g) >? 0) eqn:Hhas.
    - contradiction Hclass. reflexivity.
    - apply size_positive_empty. exact Hhas. }
  assert (Hzero : size (colors_ g) = 0) by (rewrite Hnil; reflexivity).
  assert (Hpos : 0 < size (vertices_ g)).
  { unfold size. destruct (vertices_ g); [congruence | cbn [length]; lia]. }
  split; [exact Hnil|]. split.
  - apply GetPositionColorBuffer_faulted. apply fill_color_short; lia.
  - apply GetPositionUVColorBuffer_faulted.
    apply fill_blend_short_colors; lia.
Qed.

End Payloads.

(** ** The clamp of texture coordinates *)

Lemma SFltb_irrefl (x : Scalar) : SFltb x x = false.
Proof.
  destruct (is_nan x) eqn:Hx.
  - destruct x; try discriminate Hx. reflexivity.
  - unfold SFltb. rewrite SFcompare_refl by exact Hx. reflexivity.
Qed.

Lemma SFleb_ltb_swap (x y : Scalar) : SFleb x y = true -> SFltb y x = false.
Proof.
  unfold SFleb, SFltb. destruct (SFcompare x y) as [c|] eqn:Hc;
    [|discriminate].
  rewrite (SFcompare_swap x y c Hc). destruct c; try discriminate; reflexivity.
Qed.

Lemma SFltb_asym (x y : Scalar) : SFltb x y = true -> SFltb y x = false.
Proof.
  unfold SFltb. destruct (SFcompare x y) as [c|] eqn:Hc; [|discriminate].
  rewrite (SFcompare_swap x y c Hc). destruct c; try discriminate; reflexivity.
Qed.

Lemma std_clamp_cases (v lo hi : Scalar) :
  std_clamp v lo hi = lo \/
  std_clamp v lo hi = hi \/
  (std_clamp v lo hi = v /\ SFltb v lo = false /\ SFltb hi v = false).
Proof.
  unfold std_clamp.
  destruct (SFltb v lo); [|destruct (SFltb hi v)]; auto.
Qed.

Lemma std_clamp_idempotent (v lo hi : Scalar) :
  SFleb lo hi = true ->
  std_clamp (std_clamp v lo hi) lo hi = std_clamp v lo hi.
Proof.
  intros Hle. pose proof (SFleb_ltb_swap lo hi Hle) as Hswap.
  destruct (std_clamp_cases v lo hi) as [->|[->|(-> & Hbelow & Habove)]];
    unfold std_clamp.
  - rewrite SFltb_irrefl, Hswap. reflexivity.
  - rewrite Hswap, SFltb_irrefl. reflexivity.
  - rewrite Hbelow, Habove. reflexivity.
Qed.

Lemma std_clamp_inside (v lo hi : Scalar) :
  SFleb lo v = true -> SFleb v hi = true -> std_clamp v lo hi = v.
Proof.
  intros Hlo Hhi. unfold std_clamp.
  rewrite (SFleb_ltb_swap lo v Hlo), (SFleb_ltb_swap v hi Hhi). reflexivity.
Qed.

Lemma std_clamp_above (v lo hi : Scalar) :
  SFleb lo hi = true -> SFltb hi v = true -> std_clamp v lo hi = hi.
Proof.
  intros Hle Habove. unfold std_clamp.
  rewrite (SFltb_asym lo v (SFleb_ltb_trans lo hi v Hle Habove)), Habove.
  reflexivity.
Qed.

Lemma std_clamp_below (v lo hi : Scalar) :
  SFltb v lo = true -> std_clamp v lo hi = lo.
Proof. intros Hbelow. unfold std_clamp. rewrite Hbelow. reflexivity. Qed.

Section ClampFacts.
Context `{Collaborators}.

(** X14.  Given [0 <= 1 - kEhCloseEnough], the clamp of texture
    coordinates is idempotent, and it leaves a point unchanged whose two
    components already lie between [0] and [1 - kEhCloseEnough]. *)
Theorem clamp_uv_idempotent (uv : Point.t) :
  SFleb Scalar_0 uv_upper = true ->
  clamp_uv (clamp_uv uv) = clamp_uv uv /\
  (SFleb Scalar_0 (Point.x uv) = true ->
   SFleb (Point.x uv) uv_upper = true ->
   SFleb Scalar_0 (Point.y uv) = true ->
   SFleb (Point.y uv) uv_upper = true ->
   clamp_uv uv = uv).
Proof.
  intros Hle. unfold clamp_uv. fold uv_upper. cbn [Point.x Point.y]. split.
  - rewrite !std_clamp_idempotent by exact Hle. reflexivity.
  - intros Hx0 Hx1 Hy0 Hy1. rewrite !std_clamp_inside by assumption.
    destruct uv. reflexivity.
Qed.

(** X15.  Given [0 <= 1 - kEhCloseEnough < 1], a component above
    [1 - kEhCloseEnough] is stored as [1 - kEhCloseEnough], a component
    below [0] as [+0]; in particular the coordinate [(1.0, 1.0)] is stored
    as [(1 - kEhCloseEnough, 1 - kEhCloseEnough)], and infinities are
    stored as the nearer bound. *)
Theorem clamp_uv_saturates (uv : Point.t) :
  SFleb Scalar_0 uv_upper = true ->
  SFltb uv_upper Scalar_1 = true ->
  (SFltb uv_upper (Point.x uv) = true -> Point.x (clamp_uv uv) = uv_upper) /\
  (SFltb uv_upper (Point.y uv) = true -> Point.y (clamp_uv uv) = uv_upper) /\
  (SFltb (Point.x uv) Scalar_0 = true -> Point.x (clamp_uv uv) = Scalar_0) /\
  (SFltb (Point.y uv) Scalar_0 = true -> Point.y (clamp_uv uv) = Scalar_0) /\
  clamp_uv (Point.Make Scalar_1 Scalar_1) = Point.Make uv_upper uv_upper /\
  clamp_uv (Point.Make (S754_infinity false) (S754_infinity true))
  = Point.Make uv_upper Scalar_0.
Proof.
  intros Hle Hlt. unfold clamp_uv. fold uv_upper. cbn [Point.x Point.y].
  split; [|split; [|split; [|split; [|split]]]].
  - apply std_clamp_above. exact Hle.
  - apply std_clamp_above. exact Hle.
  - apply std_clamp_below.
  - apply std_clamp_below.
  - rewrite !std_clamp_above by assumption. reflexivity.
  - assert (Hinf : SFltb uv_upper (S754_infinity false) = true).
    { destruct uv_upper as [s|s| |s m e]; try discriminate Hlt;
        try reflexivity.
      destruct s; [reflexivity | discriminate Hlt]. }
    rewrite (std_clamp_above _ _ _ Hle Hinf).
    rewrite std_clamp_below by reflexivity. reflexivity.
Qed.

End ClampFacts.

Lemma clamp_uv_idempotent_witness :
  clamp_uv (Point.Make Scalar_half Scalar_0) = Point.Make Scalar_half Scalar_0.
Proof.
  destruct (@clamp_uv_idempotent reference_collaborators
              (Point.Make Scalar_half Scalar_0) eq_refl) as [_ Hinside].
  apply Hinside; reflexivity.
Defined.

Lemma clamp_uv_saturates_witness :
  Point.x (clamp_uv (Point.Make Scalar_2 Scalar_0)) = uv_upper.
Proof.
  destruct (@clamp_uv_saturates reference_collaborators
              (Point.Make Scalar_2 Scalar_0) eq_refl eq_refl) as (Hx & _).
  apply Hx. reflexivity.
Defined.

(** ** Normalizing twice *)

Lemma explicit_triples_three (a b c : uint16_t) :
  explicit_triples [a; b; c] a 1 1 = [a; b; c].
Proof. reflexivity. Qed.

(** X16.  [NormalizeIndices] leaves the mode field [kTriangleFan], and
    is safe to repeat only on a single triangle: normalizing an
    already normalized fan of [n >= 4] walked elements unrolls its
    [3 * (n - 2)] indices once more, into [3 * (3 * (n - 2) - 2)], while a
    fan of exactly three is a fixed point. *)
Theorem NormalizeIndices_twice (g g1 g2 : VerticesGeometry) :
  vertex_mode_ g = VertexMode.kTriangleFan ->
  NormalizeIndices g = inr g1 ->
  NormalizeIndices g1 = inr g2 ->
  vertex_mode_ g1 = VertexMode.kTriangleFan /\
  (walked_size (vertices_ g) (indices_ g) = 3 -> g2 = g1) /\
  (4 <= walked_size (vertices_ g) (indices_ g) ->
   size (indices_ g1) = 3 * (walked_size (vertices_ g) (indices_ g) - 2) /\
   size (indices_ g2)
   = 3 * (3 * (walked_size (vertices_ g) (indices_ g) - 2) - 2) /\
   indices_ g2 <> indices_ g1).
Proof.
  intros Hmode Hfirst Hsecond.
  unfold NormalizeIndices in Hfirst. rewrite Hmode in Hfirst.
  destruct (fromFanIndices (vertices_ g) (indices_ g)) as [e|u1] eqn:Hrun1;
    cbn [bind ret Monad_either] in Hfirst; [discriminate Hfirst|].
  apply inr_injective in Hfirst. subst g1.
  unfold NormalizeIndices in Hsecond.
  cbn [set_indices vertex_mode_ vertices_ indices_] in Hsecond.
  rewrite Hmode in Hsecond.
  destruct (fromFanIndices (vertices_ g) u1) as [e|u2] eqn:Hrun2;
    cbn [bind ret Monad_either] in Hsecond; [discriminate Hsecond|].
  apply inr_injective in Hsecond. subst g2.
  unfold set_indices.
  cbn [vertex_mode_ vertices_ indices_ colors_ texture_coordinates_ bounds_].
  pose proof (fromFanIndices_result _ _ _ Hrun1) as Hr1.
  pose proof (fromFanIndices_result _ _ _ Hrun2) as Hr2.
  assert (Hsize1 : 3 <= walked_size (vertices_ g) (indices_ g) ->
                   size u1 = 3 * (walked_size (vertices_ g) (indices_ g) - 2)).
  { intros Hlong.
    destruct (walked_size_cases (vertices_ g) (indices_ g))
      as [[Hne Hw]|[Hnil Hw]]; rewrite Hw in Hlong |- *;
      destruct Hr1 as [[Hne' ->]|[Hnil' ->]]; try contradiction;
      try (rewrite Hnil in Hne'; contradiction).
    - replace (size (indices_ g) <? 3) with false
        by (symmetry; apply Z.ltb_ge; lia).
      unfold size in *. rewrite explicit_triples_length. lia.
    - replace (size (vertices_ g) <? 3) with false
        by (symmetry; apply Z.ltb_ge; lia).
      unfold size in *. rewrite implicit_triples16_length. lia. }
  assert (Hsize2 : 3 <= size u1 -> size u2 = 3 * (size u1 - 2)).
  { intros Hlong. destruct Hr2 as [[Hne ->]|[Hnil _]].
    - replace (size u1 <? 3) with false by (symmetry; apply Z.ltb_ge; lia).
      unfold size in *. rewrite explicit_triples_length. lia.
    - rewrite Hnil in Hlong. unfold size in Hlong. cbn [length] in Hlong. lia. }
  split; [exact Hmode|]. split.
  - intros Hthree. specialize (Hsize1 ltac:(lia)).
    assert (Hsame : u2 = u1).
    { destruct Hr2 as [[Hne ->]|[Hnil _]].
      - replace (size u1 <? 3) with false by (symmetry; apply Z.ltb_ge; lia).
        unfold size in Hsize1.
        destruct u1 as [|a [|b [|c [|d rest]]]]; cbn [length] in Hsize1;
          try lia.
        reflexivity.
      - rewrite Hnil in Hsize1. unfold size in Hsize1. cbn [length] in Hsize1.
        lia. }
    rewrite Hsame. reflexivity.
  - intros Hlong. specialize (Hsize1 ltac:(lia)).
    specialize (Hsize2 ltac:(lia)).
    split; [exact Hsize1|]. split; [lia|].
    intros Heq. rewrite Heq in Hsize2. lia.
Qed.

(** ** The further properties on concrete data *)

Lemma constructed_fan_draw_witness :
  vertex_count
    (result_vertex_buffer
       (snd (GetPositionBuffer sample_fan [] sample_entity sample_pass)))
  = 3.
Proof.
  destruct (@constructed_fan_draw reference_collaborators [] sample_entity
              sample_pass (vertices_ sample_triangle) [] []
              (colors_ sample_triangle) unit_rect sample_fan eq_refl
              (fst (GetPositionBuffer sample_fan [] sample_entity sample_pass))
              (snd (GetPositionBuffer sample_fan [] sample_entity sample_pass)))
    as (Hcount & _).
  - vm_compute. discriminate.
  - left. reflexivity.
  - rewrite Hcount. reflexivity.
Defined.

Lemma degenerate_fan_draw_witness :
  vertex_count
    (result_vertex_buffer
       (snd (GetPositionBuffer degenerate_fan [] sample_entity sample_pass)))
  = 3.
Proof.
  destruct (@degenerate_fan_draw reference_collaborators [] sample_entity
              sample_pass (vertices_ sample_triangle) [0; 1] []
              (colors_ sample_triangle) unit_rect degenerate_fan eq_refl
              (fst (GetPositionBuffer degenerate_fan [] sample_entity
                      sample_pass))
              (snd (GetPositionBuffer degenerate_fan [] sample_entity
                      sample_pass)))
    as (_ & Hcount & _).
  - vm_compute. reflexivity.
  - left. reflexivity.
  - rewrite Hcount. reflexivity.
Defined.

Lemma color_builder_records_witness :
  exists (host' : HostBuffer) (r : GeometryResult),
    GetPositionColorBuffer sample_triangle [] sample_entity sample_pass
    = inr (host', r) /\
    exists data : vector ColorVertex.t,
      view_contents host' (vertex_buffer (result_vertex_buffer r))
      = Some (ColorVertexData data) /\
      length data = 3%nat.
Proof.
  eexists. eexists. split; [reflexivity|].
  destruct (@color_builder_records reference_collaborators sample_triangle
              [] sample_entity sample_pass _ _ eq_refl)
    as (data & Hview & _ & Hlen & _).
  exists data. split; [exact Hview | exact Hlen].
Defined.

Lemma blend_builder_positions_and_colors_witness :
  exists (host' : HostBuffer) (r : GeometryResult),
    GetPositionUVColorBuffer sample_triangle unit_rect identity_transform
      [] sample_entity sample_pass = inr (host', r) /\
    exists data : vector BlendVertex.t,
      view_contents host' (vertex_buffer (result_vertex_buffer r))
      = Some (BlendVertexData data).
Proof.
  eexists. eexists. split; [reflexivity|].
  destruct (@blend_builder_positions_and_colors reference_collaborators
              sample_triangle [] sample_entity sample_pass unit_rect
              identity_transform _ _ eq_refl)
    as (data & Hview & _).
  exists data. exact Hview.
Defined.

Lemma uncolored_geometry_faults_witness :
  GetPositionColorBuffer uncolored_vertex [] sample_entity sample_pass
  = inl OutOfRange.
Proof.
  destruct (@uncolored_geometry_faults reference_collaborators
              uncolored_vertex [] sample_entity sample_pass unit_rect
              identity_transform) as (_ & Hcolor & _).
  - vm_compute. discriminate.
  - discriminate.
  - exact Hcolor.
Defined.

Lemma NormalizeIndices_twice_witness :
  exists g1 g2 : VerticesGeometry,
    NormalizeIndices square_fan = inr g1 /\
    NormalizeIndices g1 = inr g2 /\
    size (indices_ g1) = 6 /\
    size (indices_ g2) = 12.
Proof.
  eexists. eexists. split; [reflexivity|]. split; [reflexivity|].
  destruct (NormalizeIndices_twice square_fan _ _ eq_refl eq_refl eq_refl)
    as (_ & _ & Hlong).
  destruct Hlong as (Hone & Htwo & _).
  - vm_compute. discriminate.
  - split; [rewrite Hone | rewrite Htwo]; reflexivity.
Defined.

(** ** What the builders do not read *)

Section Independence.
Context `{Collaborators}.

(** X17.  No builder reads [bounds_]; the position builder reads neither
    colours nor texture coordinates, and the position and colour builder
    reads no texture coordinate: geometries that agree on the attributes a
    builder reads give the same result in the same arena. *)
Theorem builders_ignore_other_attributes (g g' : VerticesGeometry)
    (host : HostBuffer) (entity : Entity) (pass : RenderPass) :
  vertices_ g = vertices_ g' ->
  indices_ g = indices_ g' ->
  vertex_mode_ g = vertex_mode_ g' ->
  GetPositionBuffer g host entity pass = GetPositionBuffer g' host entity pass /\
  (colors_ g = colors_ g' ->
   GetPositionColorBuffer g host entity pass
   = GetPositionColorBuffer g' host entity pass /\
   (texture_coordinates_ g = texture_coordinates_ g' ->
    forall (texture_coverage : Rect.t) (effect_transform : Matrix),
      GetPositionUVColorBuffer g texture_coverage effect_transform host
        entity pass
      = GetPositionUVColorBuffer g' texture_coverage effect_transform host
          entity pass)).
Proof.
  destruct g as [v c t i b m], g' as [v' c' t' i' b' m'].
  cbn [vertices_ indices_ vertex_mode_ colors_ texture_coordinates_].
  intros <- <- <-. split; [reflexivity|].
  intros <-. split; [reflexivity|].
  intros <- texture_coverage effect_transform. reflexivity.
Qed.

End Independence.

Lemma builders_ignore_other_attributes_witness :
  GetPositionBuffer sample_triangle [] sample_entity sample_pass
  = GetPositionBuffer
      {| vertices_ := vertices_ sample_triangle;
         colors_ := [];
         texture_coordinates_ := [origin];
         indices_ := [];
         bounds_ := Rect.MakeLTRB Scalar_0 Scalar_0 Scalar_2 Scalar_2;
         vertex_mode_ := VertexMode.kTriangles |}
      [] sample_entity sample_pass.
Proof.
  apply (@builders_ignore_other_attributes reference_collaborators);
    reflexivity.
Defined.
